(** * Transmission vs congestion delay analyzer: queue simulator, experiment
      runner and closed-form delay formulas

    A shallow embedding of [pooja.py] ([Packet], [simulate_queue],
    [run_experiments]) and of the delay formulas of [delay_analyzer.py]
    ([transmission_delay], [propagation_delay], [congestion_delay]).

    Numbers.  Python floats are modelled by exact rationals [Q]; the two
    special floats the code produces on purpose, [float('inf')] and
    [float('nan')], are explicit constructors ([Inf], [PosInf], [NaN]).
    Integers ([packet_count], [max_packets]) are [Z].

    Effects.  The module-level generator [random] and whatever private
    state a [service_time_sampler] closure carries are one explicit
    world [W] threaded through every call.  Exceptions are the [Raise]
    constructor of [outcome].  The [while] loop is unrolled by a fuel
    counter; [OutOfFuel] is the only artefact of the embedding and is shown
    never to occur once the fuel reaches [iterations_bound].

    Horizon.  The simulator is modelled for a finite [sim_time]; module
    [Ext] reads its loop (lines 22-66) once more with [sim_time] and every
    time of the state allowed to be [float('inf')], and agrees with the
    finite-horizon loop whenever [sim_time] is finite. *)

From Stdlib Require Import ZArith QArith Qround Qabs List Bool Sorted Lia Lqa.
Import ListNotations.
Open Scope Q_scope.

(** ** Outcomes of Python computations *)

Inductive exn : Type :=
| ZeroDivisionError
| TypeError.

Inductive outcome (A : Type) : Type :=
| Ok (a : A)
| Raise (e : exn)
| OutOfFuel.

Arguments Ok {A} a.
Arguments Raise {A} e.
Arguments OutOfFuel {A}.

Definition bind {A B : Type} (m : outcome A) (k : A -> outcome B) : outcome B :=
  match m with
  | Ok a => k a
  | Raise e => Raise e
  | OutOfFuel => OutOfFuel
  end.

Notation "x <- m ;; k" := (bind m (fun x => k))
  (at level 61, m at next level, right associativity).
Notation "' pat <- m ;; k" := (bind m (fun x => match x with pat => k end))
  (at level 61, pat pattern, m at next level, right associativity).

(** [try: body except ZeroDivisionError: return handler] *)
Definition try_except_ZeroDivisionError {A : Type}
    (body : outcome A) (handler : A) : outcome A :=
  match body with
  | Raise ZeroDivisionError => Ok handler
  | r => r
  end.

(** ** Numbers *)

(** [x < y] on floats, as a boolean. *)
Definition Qltb (x y : Q) : bool := negb (Qle_bool y x).

(** Python's true division [x / y]: raises on a zero divisor. *)
Definition pydiv (x y : Q) : outcome Q :=
  if Qeq_bool y 0 then Raise ZeroDivisionError else Ok (x / y).

(** A time that may be [float('inf')]. *)
Inductive xtime : Type :=
| Fin (q : Q)
| Inf.

(** A reported value that may be [float('inf')] or [float('nan')]. *)
Inductive xreal : Type :=
| Real (q : Q)
| PosInf
| NaN.

(** The integer nearest to [y], ties going to the even one. *)
Definition round_half_even (y : Q) : Z :=
  let f := Qfloor y in
  match Qcompare (y - inject_Z f) (1 # 2) with
  | Lt => f
  | Gt => (f + 1)%Z
  | Eq => if Z.even f then f else (f + 1)%Z
  end.

(** The built-in [round(x, ndigits)] on a float, for [ndigits >= 0]. *)
Definition py_round (x : Q) (ndigits : nat) : Q :=
  let scale := inject_Z (10 ^ Z.of_nat ndigits) in
  inject_Z (round_half_even (x * scale)) / scale.

(** [statistics.mean] of a non-empty list. *)
Definition Qsum (l : list Q) : Q := fold_right Qplus 0 l.

Definition mean (l : list Q) : Q := Qsum l / inject_Z (Z.of_nat (length l)).

(** ** Packet *)

Module Packet.

(** [class Packet]: [start_service] and [departure_time] start as [None]. *)
Record t : Type := mk
  { arrival_time : Q;
    start_service : option Q;
    departure_time : option Q }.

(** [Packet(arrival_time)] *)
Definition init (arrival_time : Q) : t := mk arrival_time None None.

End Packet.

(** ** The queue simulator *)

Section Simulator.

(** The world: state of [random] and of the sampler. *)
Variable W : Type.

(** [expovariate lambd w]: the value [random.expovariate(lambd)] returns
    in world [w] for a non-zero [lambd], and the world after the draw. *)
Variable expovariate : Q -> W -> Q * W.

(** [random.expovariate(lambd)] divides by [lambd]. *)
Definition random_expovariate (lambd : Q) (w : W) : outcome (Q * W) :=
  if Qeq_bool lambd 0 then Raise ZeroDivisionError
  else Ok (expovariate lambd w).

Variable arrival_rate : Q.
Variable service_time_sampler : W -> outcome (Q * W).
Variable sim_time : Q.
Variable max_packets : Z.

(** The local variables of [simulate_queue] while its loop runs. *)
Record State : Type := mkState
  { t : Q;
    next_arrival : xtime;
    queue : list Packet.t;
    server_busy : bool;
    departure_time : xtime;
    packets_completed : list Packet.t;
    current_serving : option Packet.t;
    packet_count : Z;
    world : W }.

(** Lines 22-29. *)
Definition initial_state (w : W) : outcome State :=
  '(na, w1) <- (if Qltb 0 arrival_rate
                then '(x, w') <- random_expovariate arrival_rate w ;;
                     Ok (Fin x, w')
                else Ok (Inf, w)) ;;
  Ok (mkState 0 na [] false Inf [] None 0 w1).

(** Lines 34-47: the arrival event at time [a = next_arrival]. *)
Definition arrival_event (s : State) (a : Q) : outcome State :=
  let pkt := Packet.init a in
  let count := (packet_count s + 1)%Z in
  s1 <- (if negb (server_busy s)
         then '(service_time, w1) <- service_time_sampler (world s) ;;
              let pkt' := Packet.mk a (Some a) (Some (a + service_time)) in
              Ok (mkState a (next_arrival s) (queue s) true
                          (Fin (a + service_time)) (packets_completed s)
                          (Some pkt') count w1)
         else Ok (mkState a (next_arrival s) (queue s ++ [pkt])
                          (server_busy s) (departure_time s)
                          (packets_completed s) (current_serving s)
                          count (world s))) ;;
  '(x, w2) <- random_expovariate arrival_rate (world s1) ;;
  Ok (mkState (t s1) (Fin (t s1 + x)) (queue s1) (server_busy s1)
              (departure_time s1) (packets_completed s1)
              (current_serving s1) (packet_count s1) w2).

(** Lines 52-66: the departure event at time [d = departure_time]. *)
Definition departure_event (s : State) (d : Q) : outcome State :=
  let completed :=
    match current_serving s with
    | Some p => packets_completed s ++ [p]
    | None => packets_completed s
    end in
  match queue s with
  | next_pkt :: rest =>
      '(service_time, w1) <- service_time_sampler (world s) ;;
      let next_pkt' :=
        Packet.mk (Packet.arrival_time next_pkt) (Some d)
                  (Some (d + service_time)) in
      Ok (mkState d (next_arrival s) rest true (Fin (d + service_time))
                  completed (Some next_pkt') (packet_count s) w1)
  | [] =>
      Ok (mkState d (next_arrival s) [] false Inf completed None
                  (packet_count s) (world s))
  end.

(** What one pass through the loop body does to the loop. *)
Inductive control : Type :=
| Continue (s : State)
| Break (s : State).

(** Lines 50-66.  [sim_time] is finite, so an infinite [departure_time]
    is beyond it. *)
Definition departure_branch (s : State) : outcome control :=
  match departure_time s with
  | Inf => Ok (Break s)
  | Fin d =>
      if Qltb sim_time d then Ok (Break s)
      else s' <- departure_event s d ;; Ok (Continue s')
  end.

(** [next_arrival <= departure_time] *)
Definition before_departure (a : Q) (s : State) : bool :=
  match departure_time s with
  | Fin d => Qle_bool a d
  | Inf => true
  end.

(** Lines 32-66.  An infinite [next_arrival] fails
    [next_arrival <= sim_time]. *)
Definition loop_body (s : State) : outcome control :=
  match next_arrival s with
  | Fin a =>
      if before_departure a s && Qle_bool a sim_time
      then s' <- arrival_event s a ;; Ok (Continue s')
      else departure_branch s
  | Inf => departure_branch s
  end.

(** Line 31. *)
Definition loop_condition (s : State) : bool :=
  Qltb (t s) sim_time && (packet_count s <? max_packets)%Z.

Fixpoint while_loop (fuel : nat) (s : State) : outcome State :=
  match fuel with
  | O => OutOfFuel
  | S fuel' =>
      if loop_condition s then
        c <- loop_body s ;;
        match c with
        | Continue s' => while_loop fuel' s'
        | Break s' => Ok s'
        end
      else Ok s
  end.

(** [if p.start_service]: [None] and [0.0] are both falsy. *)
Definition truthy (o : option Q) : bool :=
  match o with
  | Some x => negb (Qeq_bool x 0)
  | None => false
  end.

(** [x - y] where [x] may be [None]. *)
Definition sub_from (x : option Q) (y : Q) : outcome Q :=
  match x with
  | Some a => Ok (a - y)
  | None => Raise TypeError
  end.

(** Lines 69-75. *)
Fixpoint collect_results (ps : list Packet.t) : outcome (list Q * list Q) :=
  match ps with
  | [] => Ok ([], [])
  | p :: ps' =>
      total_delay <-
        sub_from (Packet.departure_time p) (Packet.arrival_time p) ;;
      q_delay <-
        (if truthy (Packet.start_service p)
         then sub_from (Packet.start_service p) (Packet.arrival_time p)
         else Ok 0) ;;
      '(delays, queueing_times) <- collect_results ps' ;;
      Ok (total_delay :: delays, q_delay :: queueing_times)
  end.

(** Lines 22-66: the state in which the loop is left. *)
Definition simulate_queue_loop (fuel : nat) (w : W) : outcome State :=
  s0 <- initial_state w ;;
  while_loop fuel s0.

(** [simulate_queue] with the loop unrolled at most [fuel] times; the
    world after the call comes with the result. *)
Definition simulate_queue_fuel (fuel : nat) (w : W)
  : outcome (list Q * list Q * W) :=
  s <- simulate_queue_loop fuel w ;;
  r <- collect_results (packets_completed s) ;;
  Ok (r, world s).

(** A number of passes the loop never exceeds. *)
Definition iterations_bound : nat := S (2 * Z.to_nat max_packets).

Definition simulate_queue (w : W) : outcome (list Q * list Q * W) :=
  simulate_queue_fuel iterations_bound w.

End Simulator.

Arguments t {W} s.
Arguments next_arrival {W} s.
Arguments queue {W} s.
Arguments server_busy {W} s.
Arguments departure_time {W} s.
Arguments packets_completed {W} s.
Arguments current_serving {W} s.
Arguments packet_count {W} s.
Arguments world {W} s.
Arguments mkState {W}.
Arguments Continue {W} s.
Arguments Break {W} s.

(** [max_packets=int(2e6)] *)
Definition default_max_packets : Z := 2000000.

(** ** The experiment runner *)

(** One row of the result table, with the keys of the source's dict. *)
Record Row : Type := mkRow
  { rho : Q;
    arrival_rate_pkts_s : Q;
    service_rate_pkts_s : Q;
    tx_delay_s : Q;
    sim_total_mm1_s : xreal;
    sim_queue_mm1_s : Q;
    sim_total_md1_s : xreal;
    sim_queue_md1_s : Q;
    analytic_mm1_total_s : xreal;
    analytic_mm1_queue_s : xreal }.

(** [[i/20 for i in range(1, 20)]] *)
Definition default_rho_list : list Q :=
  map (fun i => inject_Z (Z.of_nat i) / 20) (seq 1 19).

Definition default_packet_size_bytes : Q := 1500.
Definition default_bandwidth_bps : Q := 10000000.
Definition default_sim_time : Q := 120.

(** [statistics.mean(l) if l else float('nan')] *)
Definition mean_or_nan (l : list Q) : xreal :=
  match l with
  | [] => NaN
  | _ :: _ => Real (mean l)
  end.

(** [statistics.mean(l) if l else 0.0] *)
Definition mean_or_zero (l : list Q) : Q :=
  match l with
  | [] => 0
  | _ :: _ => mean l
  end.

(** Lines 111-118. *)
Definition analytic_mm1 (mu lam rho : Q) : outcome (xreal * xreal) :=
  if Qltb lam mu then
    analytic_total <- pydiv 1 (mu - lam) ;;
    analytic_queue <- pydiv rho (mu - lam) ;;
    Ok (Real analytic_total, Real analytic_queue)
  else Ok (PosInf, PosInf).

Section Runner.

Variable W : Type.
Variable expovariate : Q -> W -> Q * W.

(** [lambda: random.expovariate(1.0 / service_time_mean)] *)
Definition mm1_sampler (service_time_mean : Q) (w : W) : outcome (Q * W) :=
  lambd <- pydiv 1 service_time_mean ;;
  random_expovariate W expovariate lambd w.

(** [lambda: service_time_mean] *)
Definition md1_sampler (service_time_mean : Q) (w : W) : outcome (Q * W) :=
  Ok (service_time_mean, w).

(** Lines 95-131: the body of the loop over [rho_list]. *)
Definition experiment_row
    (service_rate_packets service_time_mean sim_time rho : Q) (w : W)
  : outcome (Row * W) :=
  let arrival_rate := rho * service_rate_packets in
  '(delays_mm, q_mm, w1) <-
    simulate_queue W expovariate arrival_rate
      (mm1_sampler service_time_mean) sim_time default_max_packets w ;;
  '(delays_md, q_md, w2) <-
    simulate_queue W expovariate arrival_rate
      (md1_sampler service_time_mean) sim_time default_max_packets w1 ;;
  let mean_total_mm := mean_or_nan delays_mm in
  let mean_queue_mm := mean_or_zero q_mm in
  let mean_total_md := mean_or_nan delays_md in
  let mean_queue_md := mean_or_zero q_md in
  let mu := service_rate_packets in
  let lam := arrival_rate in
  '(analytic_total, analytic_queue) <- analytic_mm1 mu lam rho ;;
  Ok (mkRow rho arrival_rate service_rate_packets service_time_mean
            mean_total_mm mean_queue_mm mean_total_md mean_queue_md
            analytic_total analytic_queue, w2).

(** Lines 93-131: [rows], in the order of [rho_list]. *)
Fixpoint experiment_rows
    (service_rate_packets service_time_mean sim_time : Q)
    (rho_list : list Q) (w : W) : outcome (list Row * W) :=
  match rho_list with
  | [] => Ok ([], w)
  | rho :: rest =>
      '(row, w1) <-
        experiment_row service_rate_packets service_time_mean sim_time
          rho w ;;
      '(rows, w2) <-
        experiment_rows service_rate_packets service_time_mean sim_time
          rest w1 ;;
      Ok (row :: rows, w2)
  end.

(** [rho_list] is [None] when the caller leaves it out. *)
Definition run_experiments
    (packet_size_bytes bandwidth_bps : Q) (rho_list : option (list Q))
    (sim_time : Q) (w : W) : outcome (list Row * W) :=
  let rho_list :=
    match rho_list with
    | None => default_rho_list
    | Some l => l
    end in
  let L_bits := packet_size_bytes * 8 in
  service_rate_packets <- pydiv bandwidth_bps L_bits ;;
  service_time_mean <- pydiv 1 service_rate_packets ;;
  experiment_rows service_rate_packets service_time_mean sim_time
    rho_list w.

End Runner.

(** ** The closed-form delay formulas of [delay_analyzer.py] *)

Definition transmission_delay (packet_size_bits bandwidth_bps : Q)
  : outcome xreal :=
  try_except_ZeroDivisionError
    (delay <- pydiv packet_size_bits bandwidth_bps ;;
     Ok (Real (py_round delay 6)))
    PosInf.

Definition propagation_delay (distance_km propagation_speed_kmps : Q)
  : outcome xreal :=
  try_except_ZeroDivisionError
    (delay <- pydiv distance_km propagation_speed_kmps ;;
     Ok (Real (py_round delay 6)))
    PosInf.

Definition congestion_delay
    (queue_length avg_packet_arrival_rate avg_packet_service_rate : Q)
  : outcome xreal :=
  try_except_ZeroDivisionError
    (if Qle_bool avg_packet_service_rate avg_packet_arrival_rate
     then Ok PosInf
     else
       delay <- pydiv queue_length
                  (avg_packet_service_rate - avg_packet_arrival_rate) ;;
       Ok (Real (py_round delay 6)))
    PosInf.

(** ** Scripted worlds, to run the simulator on concrete draws *)

Module Script.

(** How many values [random] and the sampler have handed out so far. *)
Definition W : Type := (nat * nat)%type.

Definition start : W := (O, O).

(** [random.expovariate] returning [draws] one after the other. *)
Definition expovariate (draws : list Q) (lambd : Q) (w : W) : Q * W :=
  (nth (fst w) draws 1, (S (fst w), snd w)).

(** A sampler returning [times] one after the other. *)
Definition sampler (times : list Q) (w : W) : outcome (Q * W) :=
  Ok (nth (snd w) times 1, (fst w, S (snd w))).

(** [simulate_queue] on scripted draws and service times. *)
Definition run (draws times : list Q) (arrival_rate sim_time : Q)
    (max_packets : Z) : outcome (State W) :=
  simulate_queue_loop W (expovariate draws) arrival_rate (sampler times)
    sim_time max_packets (iterations_bound max_packets) start.

Definition results (draws times : list Q) (arrival_rate sim_time : Q)
    (max_packets : Z) : outcome (list Q * list Q * W) :=
  simulate_queue W (expovariate draws) arrival_rate (sampler times)
    sim_time max_packets start.

End Script.

(** ** Predicates the properties are stated with *)

(** [start_service] and [departure_time] are not [None]. *)
Definition fields_set (p : Packet.t) : Prop :=
  Packet.start_service p <> None /\ Packet.departure_time p <> None.

(** The value of a field that may be [None]; [0] stands for [None]. *)
Definition value_of (o : option Q) : Q :=
  match o with
  | Some x => x
  | None => 0
  end.

Definition start_of (p : Packet.t) : Q := value_of (Packet.start_service p).
Definition departure_of (p : Packet.t) : Q :=
  value_of (Packet.departure_time p).

(** [departure_time - arrival_time] *)
Definition total_delay (p : Packet.t) : Q :=
  departure_of p - Packet.arrival_time p.

(** [start_service - arrival_time] *)
Definition queueing_delay (p : Packet.t) : Q :=
  start_of p - Packet.arrival_time p.

(** The entry line 73 computes for a packet whose fields are set. *)
Definition q_delay (p : Packet.t) : Q :=
  if truthy (Packet.start_service p) then queueing_delay p else 0.

(** [arrival_time <= start_service <= departure_time], all three set. *)
Definition timestamps_ordered (p : Packet.t) : Prop :=
  fields_set p /\
  Packet.arrival_time p <= start_of p /\ start_of p <= departure_of p.

(** The packet has departed, at or before time [h]. *)
Definition departed_by (h : Q) (p : Packet.t) : Prop :=
  Packet.departure_time p <> None /\ departure_of p <= h.

(** The packet has departed, strictly before time [h]. *)
Definition departed_before (h : Q) (p : Packet.t) : Prop :=
  Packet.departure_time p <> None /\ departure_of p < h.

(** The time [x] lies beyond the horizon [h]. *)
Definition beyond (h : Q) (x : xtime) : Prop :=
  match x with
  | Fin q => h < q
  | Inf => True
  end.

(** The sampler returns a value in every world. *)
Definition sampler_total {W : Type} (sampler : W -> outcome (Q * W)) : Prop :=
  forall w, exists x w', sampler w = Ok (x, w').

(** The sampler returns only non-negative values. *)
Definition sampler_nonneg {W : Type} (sampler : W -> outcome (Q * W)) : Prop :=
  forall w x w', sampler w = Ok (x, w') -> 0 <= x.

(** [random.expovariate(lambd)] is never negative for a positive [lambd]. *)
Definition expovariate_nonneg {W : Type} (expovariate : Q -> W -> Q * W)
  : Prop :=
  forall lambd w, 0 < lambd -> 0 <= fst (expovariate lambd w).

(** What the analytic M/M/1 columns of a row are to be for service rate
    [mu] and utilization [rho], with [lam = rho * mu]: [1 / (mu - lam)] and
    [rho / (mu - lam)] when [lam < mu], infinite otherwise. *)
Definition analytic_columns (mu rho : Q) (row : Row) : Prop :=
  let lam := rho * mu in
  (lam < mu ->
   analytic_mm1_total_s row = Real (1 / (mu - lam)) /\
   analytic_mm1_queue_s row = Real (rho / (mu - lam))) /\
  (mu <= lam ->
   analytic_mm1_total_s row = PosInf /\
   analytic_mm1_queue_s row = PosInf).

(** The row of the table for utilization [r], given the service rate. *)
Definition row_for (mu r : Q) (row : Row) : Prop :=
  rho row = r /\
  arrival_rate_pkts_s row = r * mu /\
  service_rate_pkts_s row = mu /\
  tx_delay_s row = 1 / mu /\
  analytic_columns mu r row.

(** [rho_list], with the default filled in. *)
Definition rho_values (rho_list : option (list Q)) : list Q :=
  match rho_list with
  | None => default_rho_list
  | Some l => l
  end.

(** ** Invariants of the loop *)

(** [server_busy] iff [current_serving] is set iff [departure_time] is
    finite; the packet in service carries the scheduled departure, and
    nothing waits while the server is idle. *)
Definition serving_consistent {W : Type} (s : State W) : Prop :=
  if server_busy s
  then exists p d, current_serving s = Some p /\ fields_set p /\
                   Packet.departure_time p = Some d /\
                   departure_time s = Fin d
  else queue s = [] /\ departure_time s = Inf /\ current_serving s = None.

(** Holds in every run. *)
Definition basic_invariant {W : Type} (arrival_rate sim_time : Q)
    (s : State W) : Prop :=
  serving_consistent s /\
  Forall (fun p => fields_set p /\ departed_by sim_time p)
         (packets_completed s) /\
  (next_arrival s <> Inf -> 0 < arrival_rate).

(** Holds when the sampler returns only non-negative values. *)
Definition service_invariant {W : Type} (s : State W) : Prop :=
  Forall timestamps_ordered (packets_completed s) /\
  (forall p, current_serving s = Some p -> timestamps_ordered p) /\
  (forall d, departure_time s = Fin d ->
             Forall (fun p => Packet.arrival_time p <= d) (queue s)).

(** Every packet admitted so far, in the order of admission. *)
Definition all_packets {W : Type} (s : State W) : list Packet.t :=
  packets_completed s ++
  match current_serving s with
  | Some p => [p]
  | None => []
  end ++ queue s.

Definition arrivals {W : Type} (s : State W) : list Q :=
  map Packet.arrival_time (all_packets s).

(** Holds when neither the sampler nor [random.expovariate] returns a
    negative value: simulated time only moves forward. *)
Definition order_invariant {W : Type} (s : State W) : Prop :=
  0 <= t s /\
  (forall a, next_arrival s = Fin a -> t s <= a) /\
  (forall d, departure_time s = Fin d -> t s <= d) /\
  StronglySorted Qle (arrivals s) /\
  Forall (fun a => 0 <= a /\ a <= t s) (arrivals s) /\
  StronglySorted Qle (map departure_of (packets_completed s)) /\
  Forall (fun p => departure_of p <= t s) (packets_completed s).

(** The states the loop of [simulate_queue] goes through, from the state
    lines 22-29 set up. *)
Inductive reachable {W : Type} (expovariate : Q -> W -> Q * W)
    (arrival_rate : Q) (service_time_sampler : W -> outcome (Q * W))
    (sim_time : Q) (max_packets : Z) : State W -> Prop :=
| reachable_initial (w : W) (s : State W) :
    initial_state W expovariate arrival_rate w = Ok s ->
    reachable expovariate arrival_rate service_time_sampler sim_time
      max_packets s
| reachable_pass (s s' : State W) :
    reachable expovariate arrival_rate service_time_sampler sim_time
      max_packets s ->
    loop_condition W sim_time max_packets s = true ->
    loop_body W expovariate arrival_rate service_time_sampler sim_time s =
    Ok (Continue s') ->
    reachable expovariate arrival_rate service_time_sampler sim_time
      max_packets s'.

(** The quantity every pass through the loop decreases. *)
Definition loop_measure {W : Type} (max_packets : Z) (s : State W) : nat :=
  2 * Z.to_nat (max_packets - packet_count s) + length (queue s) +
  match departure_time s with
  | Fin _ => 1
  | Inf => 0
  end.

(** How the loop of [simulate_queue] can be left: the clock is at the
    horizon, the packet cap is reached, or both pending events lie beyond
    the horizon. *)
Definition stopped {W : Type} (sim_time : Q) (max_packets : Z)
    (s : State W) : Prop :=
  sim_time <= t s \/
  (max_packets <= packet_count s)%Z \/
  (beyond sim_time (next_arrival s) /\ beyond sim_time (departure_time s)).

(** Lines 66-69: the statements inside the [try] of [congestion_delay]. *)
Definition congestion_delay_try
    (queue_length avg_packet_arrival_rate avg_packet_service_rate : Q)
  : outcome xreal :=
  if Qle_bool avg_packet_service_rate avg_packet_arrival_rate
  then Ok PosInf
  else
    delay <- pydiv queue_length
               (avg_packet_service_rate - avg_packet_arrival_rate) ;;
    Ok (Real (py_round delay 6)).

(** ** The report of [total_network_delay] *)

(** [x + y] on floats that may be [inf] or [nan]; no negative infinity
    occurs in this program. *)
Definition xadd (x y : xreal) : xreal :=
  match x, y with
  | Real a, Real b => Real (a + b)
  | NaN, _ | _, NaN => NaN
  | _, _ => PosInf
  end.

(** [round(x, ndigits)]: [inf] and [nan] round to themselves. *)
Definition xround (x : xreal) (ndigits : nat) : xreal :=
  match x with
  | Real q => Real (py_round q ndigits)
  | PosInf => PosInf
  | NaN => NaN
  end.

(** The dict [total_network_delay] returns, one field per key. *)
Record DelayReport : Type := mkDelayReport
  { Transmission_Delay_sec : xreal;
    Propagation_Delay_sec : xreal;
    Congestion_Delay_sec : xreal;
    Total_Delay_sec : xreal }.

(** Lines 73-84 of [delay_analyzer.py]. *)
Definition total_network_delay
    (packet_size_bits bandwidth_bps distance_km propagation_speed_kmps
       queue_length arrival_rate service_rate : Q) : outcome DelayReport :=
  t_delay <- transmission_delay packet_size_bits bandwidth_bps ;;
  p_delay <- propagation_delay distance_km propagation_speed_kmps ;;
  c_delay <- congestion_delay queue_length arrival_rate service_rate ;;
  let total := xadd (xadd t_delay p_delay) c_delay in
  Ok (mkDelayReport t_delay p_delay c_delay (xround total 6)).

(** ** Further predicates *)

(** [x <= y] on reported values; [nan] compares with nothing. *)
Definition xreal_le (x y : xreal) : Prop :=
  match x, y with
  | Real a, Real b => a <= b
  | Real _, PosInf => True
  | PosInf, PosInf => True
  | _, _ => False
  end.

(** The reported value is a number, and at least [c]. *)
Definition at_least (c : Q) (x : xreal) : Prop :=
  match x with
  | Real a => c <= a
  | _ => False
  end.

(** The sampler returns [c] whenever it returns. *)
Definition sampler_constant {W : Type} (c : Q)
    (sampler : W -> outcome (Q * W)) : Prop :=
  forall w x w', sampler w = Ok (x, w') -> x = c.

(** A packet of the waiting line: not yet in service. *)
Definition waiting (p : Packet.t) : Prop :=
  Packet.start_service p = None /\ Packet.departure_time p = None.

(** [1] for a busy server, [0] for an idle one. *)
Definition in_service {W : Type} (s : State W) : nat :=
  if server_busy s then 1 else 0.

(** Packet [p] went into service right after packet [prev]: on its own
    arrival if [prev] had departed by then, at the departure of [prev]
    otherwise. *)
Definition starts_after (prev p : Packet.t) : Prop :=
  (start_of p = Packet.arrival_time p /\
   departure_of prev <= Packet.arrival_time p) \/
  (start_of p = departure_of prev /\
   Packet.arrival_time p <= departure_of prev).

(** [R] relates every element of the list to the next one. *)
Fixpoint consecutive {A : Type} (R : A -> A -> Prop) (l : list A) : Prop :=
  match l with
  | [] => True
  | x :: tl =>
      match tl with
      | [] => True
      | y :: _ => R x y
      end /\ consecutive R tl
  end.

(** The packets that have entered service, in that order. *)
Definition served {W : Type} (s : State W) : list Packet.t :=
  packets_completed s ++
  match current_serving s with
  | Some p => [p]
  | None => []
  end.

(** ** The loop of the queue simulator on a horizon that may be infinite *)

(** [x + q] for a time that may be [float('inf')]. *)
Definition xplus (x : xtime) (q : Q) : xtime :=
  match x with
  | Fin a => Fin (a + q)
  | Inf => Inf
  end.

(** [x <= y] on times that may be [float('inf')]. *)
Definition xle (x y : xtime) : bool :=
  match x, y with
  | Fin a, Fin b => Qle_bool a b
  | _, Inf => true
  | Inf, Fin _ => false
  end.

(** [x < y] on times that may be [float('inf')]. *)
Definition xlt (x y : xtime) : bool := negb (xle y x).

(** Lines 22-66 of [pooja.py] once more, with [sim_time] and every time of
    the state allowed to be [float('inf')]; the sampler and
    [random.expovariate] still return finite values. *)
Module Ext.

Module Packet.

Record t : Type := mk
  { arrival_time : xtime;
    start_service : option xtime;
    departure_time : option xtime }.

Definition init (arrival_time : xtime) : t := mk arrival_time None None.

End Packet.

Section Simulator.

Variable W : Type.
Variable expovariate : Q -> W -> Q * W.
Variable arrival_rate : Q.
Variable service_time_sampler : W -> outcome (Q * W).
Variable sim_time : xtime.
Variable max_packets : Z.

Record State : Type := mkState
  { t : xtime;
    next_arrival : xtime;
    queue : list Packet.t;
    server_busy : bool;
    departure_time : xtime;
    packets_completed : list Packet.t;
    current_serving : option Packet.t;
    packet_count : Z;
    world : W }.

(** Lines 22-29. *)
Definition initial_state (w : W) : outcome State :=
  '(na, w1) <- (if Qltb 0 arrival_rate
                then '(x, w') <- random_expovariate W expovariate
                                   arrival_rate w ;;
                     Ok (Fin x, w')
                else Ok (Inf, w)) ;;
  Ok (mkState (Fin 0) na [] false Inf [] None 0 w1).

(** Lines 34-47. *)
Definition arrival_event (s : State) : outcome State :=
  let t := next_arrival s in
  let pkt := Packet.init t in
  let count := (packet_count s + 1)%Z in
  s1 <- (if negb (server_busy s)
         then '(service_time, w1) <- service_time_sampler (world s) ;;
              let pkt' :=
                Packet.mk t (Some t) (Some (xplus t service_time)) in
              Ok (mkState t (next_arrival s) (queue s) true
                          (xplus t service_time) (packets_completed s)
                          (Some pkt') count w1)
         else Ok (mkState t (next_arrival s) (queue s ++ [pkt])
                          (server_busy s) (departure_time s)
                          (packets_completed s) (current_serving s)
                          count (world s))) ;;
  '(x, w2) <- random_expovariate W expovariate arrival_rate (world s1) ;;
  Ok (mkState t (xplus t x) (queue s1) (server_busy s1)
              (departure_time s1) (packets_completed s1)
              (current_serving s1) (packet_count s1) w2).

(** Lines 52-66. *)
Definition departure_event (s : State) : outcome State :=
  let t := departure_time s in
  let completed :=
    match current_serving s with
    | Some p => packets_completed s ++ [p]
    | None => packets_completed s
    end in
  match queue s with
  | next_pkt :: rest =>
      '(service_time, w1) <- service_time_sampler (world s) ;;
      let next_pkt' :=
        Packet.mk (Packet.arrival_time next_pkt) (Some t)
                  (Some (xplus t service_time)) in
      Ok (mkState t (next_arrival s) rest true (xplus t service_time)
                  completed (Some next_pkt') (packet_count s) w1)
  | [] =>
      Ok (mkState t (next_arrival s) [] false Inf completed None
                  (packet_count s) (world s))
  end.

Inductive control : Type :=
| Continue (s : State)
| Break (s : State).

(** Lines 32-66. *)
Definition loop_body (s : State) : outcome control :=
  if xle (next_arrival s) (departure_time s) && xle (next_arrival s) sim_time
  then s' <- arrival_event s ;; Ok (Continue s')
  else if xlt sim_time (departure_time s) then Ok (Break s)
       else s' <- departure_event s ;; Ok (Continue s').

(** Line 31. *)
Definition loop_condition (s : State) : bool :=
  xlt (t s) sim_time && (packet_count s <? max_packets)%Z.

Fixpoint while_loop (fuel : nat) (s : State) : outcome State :=
  match fuel with
  | O => OutOfFuel
  | S fuel' =>
      if loop_condition s then
        c <- loop_body s ;;
        match c with
        | Continue s' => while_loop fuel' s'
        | Break s' => Ok s'
        end
      else Ok s
  end.

(** Lines 22-66: the state in which the loop is left, or the exception
    that leaves [simulate_queue] from there. *)
Definition simulate_queue_loop (fuel : nat) (w : W) : outcome State :=
  s0 <- initial_state w ;;
  while_loop fuel s0.

End Simulator.

Arguments t {W} s.
Arguments next_arrival {W} s.
Arguments queue {W} s.
Arguments server_busy {W} s.
Arguments departure_time {W} s.
Arguments packets_completed {W} s.
Arguments current_serving {W} s.
Arguments packet_count {W} s.
Arguments world {W} s.
Arguments mkState {W}.
Arguments Continue {W} s.
Arguments Break {W} s.

End Ext.

(** A packet and a state of the finite-horizon loop, read as ones of the
    loop above. *)
Definition lift_packet (p : Packet.t) : Ext.Packet.t :=
  Ext.Packet.mk (Fin (Packet.arrival_time p))
                (option_map Fin (Packet.start_service p))
                (option_map Fin (Packet.departure_time p)).

Definition lift_state {W : Type} (s : State W) : Ext.State W :=
  Ext.mkState (Fin (t s)) (next_arrival s) (map lift_packet (queue s))
              (server_busy s) (departure_time s)
              (map lift_packet (packets_completed s))
              (option_map lift_packet (current_serving s))
              (packet_count s) (world s).

Definition lift_control {W : Type} (c : control W) : Ext.control W :=
  match c with
  | Continue s => Ext.Continue (lift_state s)
  | Break s => Ext.Break (lift_state s)
  end.

(** The outcome of a computation, its value changed by [f]. *)
Definition outcome_map {A B : Type} (f : A -> B) (m : outcome A) : outcome B :=
  match m with
  | Ok a => Ok (f a)
  | Raise e => Raise e
  | OutOfFuel => OutOfFuel
  end.

(** * Properties *)

(** ** Booleans, outcomes and lists *)

Lemma Qltb_true (x y : Q) : Qltb x y = true <-> x < y.
Proof.
  unfold Qltb. rewrite negb_true_iff. split.
  - intros H. apply Qnot_le_lt. intros Hle.
    apply Qle_bool_iff in Hle. congruence.
  - intros H. destruct (Qle_bool y x) eqn:E; [|reflexivity].
    apply Qle_bool_iff in E. lra.
Qed.

Lemma Qltb_false (x y : Q) : Qltb x y = false <-> y <= x.
Proof.
  unfold Qltb. rewrite negb_false_iff. apply Qle_bool_iff.
Qed.

Lemma Qle_bool_false (x y : Q) : Qle_bool x y = false <-> y < x.
Proof.
  rewrite <- Qltb_true. unfold Qltb. now rewrite negb_true_iff.
Qed.

Lemma bind_Ok {A B : Type} (m : outcome A) (k : A -> outcome B) (b : B) :
  bind m k = Ok b -> exists a, m = Ok a /\ k a = Ok b.
Proof.
  destruct m as [a| |]; simpl; intros H; try discriminate.
  exists a. split; [reflexivity|exact H].
Qed.

Lemma pydiv_Ok (x y : Q) : ~ y == 0 -> pydiv x y = Ok (x / y).
Proof.
  intros H. unfold pydiv. destruct (Qeq_bool y 0) eqn:E; [|reflexivity].
  apply Qeq_bool_iff in E. contradiction.
Qed.

Lemma pydiv_Raise (x y : Q) : y == 0 -> pydiv x y = Raise ZeroDivisionError.
Proof.
  intros H. unfold pydiv. apply Qeq_bool_iff in H. now rewrite H.
Qed.

Lemma Forall_snoc {A : Type} (P : A -> Prop) (l : list A) (x : A) :
  Forall P l -> P x -> Forall P (l ++ [x]).
Proof.
  intros Hl Hx. apply Forall_app. split; [exact Hl|]. constructor; auto.
Qed.

Lemma StronglySorted_snoc {A : Type} (R : A -> A -> Prop) (l : list A) (x : A) :
  StronglySorted R l -> Forall (fun y => R y x) l ->
  StronglySorted R (l ++ [x]).
Proof.
  induction l as [|y l IH]; simpl; intros Hs Hx.
  - constructor; constructor.
  - inversion Hs; subst. inversion Hx; subst.
    constructor; [auto|]. apply Forall_snoc; assumption.
Qed.

(** In a list sorted by two keys at once, a strictly smaller first key
    comes with a second key that is not larger. *)
Lemma sorted_twice_no_overtaking {A : Type} (f g : A -> Q) (l : list A) :
  StronglySorted Qle (map f l) -> StronglySorted Qle (map g l) ->
  forall a b, In a l -> In b l -> f a < f b -> g a <= g b.
Proof.
  induction l as [|x l IH]; simpl; intros Hf Hg a b Ha Hb Hlt.
  - contradiction.
  - inversion Hf as [|? ? Hf' Hfx]; subst.
    inversion Hg as [|? ? Hg' Hgx]; subst.
    rewrite Forall_forall in Hfx, Hgx.
    destruct Ha as [Ha|Ha], Hb as [Hb|Hb]; subst.
    + lra.
    + apply Hgx. now apply in_map.
    + assert (f b <= f a) by (apply Hfx; now apply in_map). lra.
    + now apply IH.
Qed.

(** Peel the binds of an outcome known to be [Ok]. *)
Ltac inv_bind :=
  repeat match goal with
    | H : bind _ _ = Ok _ |- _ =>
        let a := fresh "r" in
        let E := fresh "E" in
        apply bind_Ok in H; destruct H as [a [E H]]
    | H : (let (_, _) := ?p in _) = Ok _ |- _ => destruct p
    | H : Ok _ = Ok _ |- _ => inversion H; subst; clear H
    | H : Raise _ = Ok _ |- _ => discriminate H
    | H : OutOfFuel = Ok _ |- _ => discriminate H
    end.

(** ** The loop of [simulate_queue] *)

Section SimulatorFacts.

Variable W : Type.
Variable expovariate : Q -> W -> Q * W.
Variable arrival_rate : Q.
Variable service_time_sampler : W -> outcome (Q * W).
Variable sim_time : Q.
Variable max_packets : Z.

Local Abbreviation St := (State W).
Local Abbreviation body :=
  (loop_body W expovariate arrival_rate service_time_sampler sim_time).
Local Abbreviation cond := (loop_condition W sim_time max_packets).
Local Abbreviation loop :=
  (while_loop W expovariate arrival_rate service_time_sampler sim_time
     max_packets).
Local Abbreviation arrival :=
  (arrival_event W expovariate arrival_rate service_time_sampler).
Local Abbreviation departure := (departure_event W service_time_sampler).
Local Abbreviation dbranch :=
  (departure_branch W service_time_sampler sim_time).
Local Abbreviation init := (initial_state W expovariate arrival_rate).
Local Abbreviation run :=
  (simulate_queue_loop W expovariate arrival_rate service_time_sampler
     sim_time max_packets).

(** [break] leaves the state as it is. *)
Lemma loop_body_Break (s s' : St) : body s = Ok (Break s') -> s' = s.
Proof.
  unfold loop_body, departure_branch.
  destruct (next_arrival s) as [a|];
    [destruct (before_departure W a s && Qle_bool a sim_time)|];
    try destruct (departure_time s) as [d|];
    try destruct (Qltb sim_time d);
    intros H; inv_bind; try congruence.
Qed.

(** A pass that continues is an arrival or a departure event. *)
Lemma loop_body_Continue (s s' : St) :
  body s = Ok (Continue s') ->
  (exists a, next_arrival s = Fin a /\ before_departure W a s = true /\
             a <= sim_time /\ arrival s a = Ok s') \/
  (exists d, departure_time s = Fin d /\ d <= sim_time /\
             ~ (exists a, next_arrival s = Fin a /\ a <= d) /\
             departure s d = Ok s').
Proof.
  unfold loop_body, departure_branch, before_departure.
  destruct (next_arrival s) as [a|] eqn:Ena.
  - destruct (departure_time s) as [d|] eqn:Ed.
    + destruct (Qle_bool a d) eqn:Ead; simpl.
      * destruct (Qle_bool a sim_time) eqn:Eas.
        -- intros H. inv_bind. left. exists a.
           apply Qle_bool_iff in Eas. auto.
        -- destruct (Qltb sim_time d) eqn:Esd; intros H; inv_bind.
           right. exists d. apply Qltb_false in Esd.
           apply Qle_bool_false in Eas. repeat split; auto.
           intros [a' [Ha' Hle]]. inversion Ha'; subst. lra.
      * destruct (Qltb sim_time d) eqn:Esd; intros H; inv_bind.
        right. exists d. apply Qltb_false in Esd.
        apply Qle_bool_false in Ead. repeat split; auto.
        intros [a' [Ha' Hle]]. inversion Ha'; subst. lra.
    + simpl. destruct (Qle_bool a sim_time) eqn:Eas.
      * intros H. inv_bind. left. exists a.
        apply Qle_bool_iff in Eas. auto.
      * intros H. inv_bind.
  - destruct (departure_time s) as [d|] eqn:Ed.
    + destruct (Qltb sim_time d) eqn:Esd; intros H; inv_bind.
      right. exists d. apply Qltb_false in Esd. repeat split; auto.
      intros [a' [Ha' _]]. discriminate.
    + intros H. inv_bind.
Qed.

(** A property kept by every pass holds when the loop is left. *)
Lemma while_loop_invariant (P : St -> Prop) :
  (forall s s', P s -> cond s = true -> body s = Ok (Continue s') -> P s') ->
  forall fuel s s', P s -> loop fuel s = Ok s' -> P s'.
Proof.
  intros Hstep. induction fuel as [|fuel IH]; simpl; intros s s' Hs H.
  - discriminate.
  - destruct (cond s) eqn:Ec.
    + apply bind_Ok in H. destruct H as [c [Eb H]].
      destruct c as [s1|s1].
      * eapply IH; [|exact H]. eapply Hstep; eauto.
      * inversion H; subst. apply loop_body_Break in Eb. now subst.
    + inversion H; subst. exact Hs.
Qed.

(** More fuel does not change a result. *)
Lemma while_loop_more_fuel (fuel fuel' : nat) (s s' : St) :
  loop fuel s = Ok s' -> (fuel <= fuel')%nat -> loop fuel' s = Ok s'.
Proof.
  revert fuel' s. induction fuel as [|fuel IH]; simpl; intros fuel' s H Hle.
  - discriminate.
  - destruct fuel' as [|fuel']; [lia|]. simpl.
    destruct (cond s); [|exact H].
    destruct (body s) as [[s1|s1]| |]; simpl in *; try discriminate.
    + apply IH; [exact H|lia].
    + exact H.
Qed.

(** *** The invariant of every run *)

Lemma initial_state_basic (w : W) (s : St) :
  init w = Ok s -> basic_invariant arrival_rate sim_time s.
Proof.
  unfold initial_state. intros H.
  destruct (Qltb 0 arrival_rate) eqn:Er; inv_bind;
    (split; [|split]); simpl; auto.
  - unfold serving_consistent; simpl. auto.
  - intros _. now apply Qltb_true.
  - unfold serving_consistent; simpl. auto.
  - congruence.
Qed.

Lemma loop_body_basic (s s' : St) :
  basic_invariant arrival_rate sim_time s ->
  body s = Ok (Continue s') ->
  basic_invariant arrival_rate sim_time s'.
Proof.
  intros (Hserv & Hdone & Hrate) Hb.
  apply loop_body_Continue in Hb.
  destruct Hb as [(a & Ena & Ebd & Has & Hev)|(d & Ed & Hds & Hna & Hev)].
  - assert (Hr : 0 < arrival_rate) by (apply Hrate; congruence).
    unfold arrival_event in Hev. unfold serving_consistent in Hserv.
    destruct (server_busy s) eqn:Eb; simpl in Hev; inv_bind; simpl in *;
      (split; [|split]); simpl; auto;
      unfold serving_consistent; simpl;
      eexists; eexists; repeat split; simpl; congruence.
  - unfold departure_event in Hev. unfold serving_consistent in Hserv.
    destruct (server_busy s) eqn:Eb.
    + destruct Hserv as (p & d' & Ecs & Hset & Epd & Ed').
      assert (d' = d) by congruence. subst d'.
      assert (Hp : fields_set p /\ departed_by sim_time p).
      { split; [exact Hset|]. unfold departed_by, departure_of.
        rewrite Epd. simpl. split; [congruence|exact Hds]. }
      rewrite Ecs in Hev.
      destruct (queue s) as [|next_pkt rest]; inv_bind;
        (split; [|split]); simpl; auto using Forall_snoc;
        unfold serving_consistent; simpl; auto;
        eexists; eexists; repeat split; simpl; congruence.
    + destruct Hserv as (_ & Einf & _). congruence.
Qed.

(** The invariant holds wherever the loop is left. *)
Lemma run_basic (fuel : nat) (w : W) (s : St) :
  run fuel w = Ok s -> basic_invariant arrival_rate sim_time s.
Proof.
  unfold simulate_queue_loop. intros H. inv_bind.
  eapply while_loop_invariant with (P := basic_invariant arrival_rate sim_time);
    [| |exact H].
  - intros s1 s2 H1 _ Hb. eapply loop_body_basic; eauto.
  - eapply initial_state_basic; eauto.
Qed.

(** *** The invariant of runs with non-negative service times *)

Lemma loop_body_service (s s' : St) :
  sampler_nonneg service_time_sampler ->
  basic_invariant arrival_rate sim_time s ->
  service_invariant s ->
  body s = Ok (Continue s') ->
  service_invariant s'.
Proof.
  intros Hsv (Hserv & _ & _) (Hdone & Hcur & Hq) Hb.
  apply loop_body_Continue in Hb.
  destruct Hb as [(a & Ena & Ebd & Has & Hev)|(d & Ed & Hds & Hna & Hev)].
  - unfold arrival_event in Hev. unfold serving_consistent in Hserv.
    unfold before_departure in Ebd.
    destruct (server_busy s) eqn:Eb; simpl in Hev; inv_bind; simpl in *.
    + destruct Hserv as (p & d & Ecs & Hset & Epd & Ed).
      rewrite Ed in Ebd. apply Qle_bool_iff in Ebd.
      split; [|split]; simpl; auto.
      intros d' Ed'. assert (d' = d) by congruence. subst d'.
      apply Forall_snoc; [now apply Hq|]. exact Ebd.
    + destruct Hserv as (Eq & _ & _).
      match goal with E : service_time_sampler _ = Ok _ |- _ =>
        apply Hsv in E; rename E into Hx end.
      split; [|split]; simpl; auto.
      * intros p Hp. inversion Hp; subst.
        unfold timestamps_ordered, fields_set, start_of, departure_of; simpl.
        repeat split; try congruence; lra.
      * intros d _. rewrite Eq. constructor.
  - unfold departure_event in Hev. unfold serving_consistent in Hserv.
    destruct (server_busy s) eqn:Eb.
    + destruct Hserv as (p & d' & Ecs & Hset & Epd & Ed').
      assert (d' = d) by congruence. subst d'.
      specialize (Hcur p Ecs). specialize (Hq d Ed).
      rewrite Ecs in Hev.
      destruct (queue s) as [|next_pkt rest]; inv_bind.
      * split; [|split]; simpl; auto using Forall_snoc;
          intros; discriminate.
      * match goal with E : service_time_sampler _ = Ok _ |- _ =>
          apply Hsv in E; rename E into Hx end.
        inversion Hq as [|? ? Hnext Hrest]; subst.
        split; [|split]; simpl; auto using Forall_snoc.
        -- intros p' Hp'. inversion Hp'; subst.
           unfold timestamps_ordered, fields_set, start_of, departure_of;
             simpl.
           repeat split; try congruence; lra.
        -- intros d' Hd'. inversion Hd'; subst.
           eapply Forall_impl; [|exact Hrest]. simpl. intros; lra.
    + destruct Hserv as (_ & Einf & _). congruence.
Qed.

Lemma initial_state_service (w : W) (s : St) :
  init w = Ok s -> service_invariant s.
Proof.
  unfold initial_state. intros H.
  destruct (Qltb 0 arrival_rate); inv_bind;
    (split; [|split]); simpl; auto; intros; discriminate.
Qed.

Lemma run_service (fuel : nat) (w : W) (s : St) :
  sampler_nonneg service_time_sampler ->
  run fuel w = Ok s -> service_invariant s.
Proof.
  unfold simulate_queue_loop. intros Hsv H. inv_bind.
  cut (basic_invariant arrival_rate sim_time s /\ service_invariant s);
    [tauto|].
  eapply while_loop_invariant
    with (P := fun s => basic_invariant arrival_rate sim_time s /\
                        service_invariant s); [| |exact H].
  - intros s1 s2 [H1 H2] _ Hb. split.
    + eapply loop_body_basic; eauto.
    + eapply loop_body_service; eauto.
  - split.
    + eapply initial_state_basic; eauto.
    + eapply initial_state_service; eauto.
Qed.

(** *** The invariant of runs in which time only moves forward *)

Lemma random_expovariate_nonneg (lambd x : Q) (w w' : W) :
  expovariate_nonneg expovariate -> 0 < lambd ->
  random_expovariate W expovariate lambd w = Ok (x, w') -> 0 <= x.
Proof.
  intros Hia Hl. unfold random_expovariate.
  destruct (Qeq_bool lambd 0); intros H; inversion H as [E].
  specialize (Hia lambd w Hl). rewrite E in Hia. exact Hia.
Qed.

Lemma arrival_event_arrivals (s s' : St) (a : Q) :
  serving_consistent s -> arrival s a = Ok s' ->
  arrivals s' = arrivals s ++ [a] /\
  packets_completed s' = packets_completed s /\ t s' = a.
Proof.
  unfold arrival_event, serving_consistent, arrivals, all_packets.
  intros Hserv Hev.
  destruct (server_busy s) eqn:Eb; simpl in Hev; inv_bind; simpl.
  - repeat split. rewrite !map_app. simpl. now rewrite <- !app_assoc.
  - destruct Hserv as (Eq & _ & Ecs). rewrite Eq, Ecs. simpl.
    repeat split. rewrite !map_app. simpl. now rewrite !app_nil_r.
Qed.

Lemma departure_event_arrivals (s s' : St) (d : Q) :
  departure s d = Ok s' -> arrivals s' = arrivals s /\ t s' = d.
Proof.
  unfold departure_event, arrivals, all_packets. intros Hev.
  destruct (queue s) as [|next_pkt rest]; inv_bind; simpl;
    (split; [|reflexivity]);
    destruct (current_serving s); simpl;
    rewrite ?map_app, <- ?app_assoc; simpl; reflexivity.
Qed.

Lemma loop_body_order (s s' : St) :
  sampler_nonneg service_time_sampler ->
  expovariate_nonneg expovariate ->
  basic_invariant arrival_rate sim_time s ->
  order_invariant s ->
  body s = Ok (Continue s') ->
  order_invariant s'.
Proof.
  intros Hsv Hia (Hserv & _ & Hrate)
         (Ht0 & Hna & Hdep & Hsa & Hba & Hsd & Hbd) Hb.
  apply loop_body_Continue in Hb.
  destruct Hb as [(a & Ena & Ebd & Has & Hev)|(d & Ed & Hds & Hno & Hev)].
  - assert (Hr : 0 < arrival_rate) by (apply Hrate; congruence).
    assert (Hta : t s <= a) by now apply Hna.
    destruct (arrival_event_arrivals s s' a Hserv Hev) as (Earr & Edone & Et).
    unfold order_invariant. rewrite Earr, Edone, Et.
    assert (Hnew : (forall a', next_arrival s' = Fin a' -> a <= a') /\
                   (forall d, departure_time s' = Fin d -> a <= d)).
    { clear Et Earr Edone.
      unfold arrival_event in Hev. unfold before_departure in Ebd.
      destruct (server_busy s) eqn:Eb; simpl in Hev; inv_bind; simpl;
        repeat match goal with
          | E : random_expovariate _ _ _ _ = Ok _ |- _ =>
              apply random_expovariate_nonneg in E; [|assumption|assumption]
          | E : service_time_sampler _ = Ok _ |- _ => apply Hsv in E
          end;
        split; intros y Hy; inversion Hy; subst; try lra.
      rewrite Hy in Ebd. now apply Qle_bool_iff in Ebd. }
    destruct Hnew as [Hn1 Hn2].
    repeat split; auto; try lra.
    + apply StronglySorted_snoc; [exact Hsa|].
      eapply Forall_impl; [|exact Hba]. simpl. intros; lra.
    + apply Forall_snoc.
      * eapply Forall_impl; [|exact Hba]. simpl. intros; lra.
      * lra.
    + eapply Forall_impl; [|exact Hbd]. simpl. intros; lra.
  - assert (Htd : t s <= d) by now apply Hdep.
    destruct (departure_event_arrivals s s' d Hev) as (Earr & Et).
    unfold order_invariant. rewrite Earr, Et.
    unfold serving_consistent in Hserv.
    destruct (server_busy s) eqn:Eb;
      [|destruct Hserv as (_ & Einf & _); congruence].
    destruct Hserv as (p & d' & Ecs & Hset & Epd & Ed').
    assert (d' = d) by congruence. subst d'.
    assert (Hnew : (forall a', next_arrival s' = Fin a' -> d <= a') /\
                   (forall d', departure_time s' = Fin d' -> d <= d') /\
                   packets_completed s' = packets_completed s ++ [p]).
    { clear Et Earr. unfold departure_event in Hev. rewrite Ecs in Hev.
      destruct (queue s) as [|next_pkt rest]; inv_bind; simpl;
        repeat match goal with
          | E : service_time_sampler _ = Ok _ |- _ => apply Hsv in E
          end;
        (split; [|split]); try reflexivity;
        intros y Hy; try (inversion Hy; subst; lra);
        destruct (Qlt_le_dec d y) as [Hlt|Hle]; try lra;
        exfalso; apply Hno; exists y; auto. }
    destruct Hnew as (Hn1 & Hn2 & Edone). rewrite Edone.
    assert (Hpd : departure_of p == d)
      by (unfold departure_of; rewrite Epd; reflexivity).
    repeat split; auto; try lra.
    + eapply Forall_impl; [|exact Hba]. simpl. intros; lra.
    + rewrite map_app. simpl. apply StronglySorted_snoc; [exact Hsd|].
      rewrite Forall_map. eapply Forall_impl; [|exact Hbd].
      simpl. intros; lra.
    + apply Forall_snoc; [|lra].
      eapply Forall_impl; [|exact Hbd]. simpl. intros; lra.
Qed.

Lemma initial_state_order (w : W) (s : St) :
  expovariate_nonneg expovariate ->
  init w = Ok s -> order_invariant s.
Proof.
  unfold initial_state. intros Hia H.
  destruct (Qltb 0 arrival_rate) eqn:Er; inv_bind;
    unfold order_invariant, arrivals, all_packets; simpl;
    repeat split; try lra; try constructor; try discriminate.
  intros a Ha. inversion Ha; subst.
  eapply random_expovariate_nonneg; eauto. now apply Qltb_true.
Qed.

Lemma run_order (fuel : nat) (w : W) (s : St) :
  sampler_nonneg service_time_sampler ->
  expovariate_nonneg expovariate ->
  run fuel w = Ok s -> order_invariant s.
Proof.
  unfold simulate_queue_loop. intros Hsv Hia H. inv_bind.
  cut (basic_invariant arrival_rate sim_time s /\ order_invariant s);
    [tauto|].
  eapply while_loop_invariant
    with (P := fun s => basic_invariant arrival_rate sim_time s /\
                        order_invariant s); [| |exact H].
  - intros s1 s2 [H1 H2] _ Hb. split.
    + eapply loop_body_basic; eauto.
    + eapply loop_body_order; eauto.
  - split.
    + eapply initial_state_basic; eauto.
    + eapply initial_state_order; eauto.
Qed.

(** *** Termination *)

Lemma loop_body_measure (s s' : St) :
  cond s = true -> body s = Ok (Continue s') ->
  (loop_measure max_packets s' < loop_measure max_packets s)%nat.
Proof.
  unfold loop_condition. intros Hc Hb.
  apply andb_true_iff in Hc. destruct Hc as [_ Hc].
  apply Z.ltb_lt in Hc.
  apply loop_body_Continue in Hb.
  destruct Hb as [(a & Ena & Ebd & Has & Hev)|(d & Ed & Hds & Hna & Hev)].
  - unfold arrival_event in Hev.
    destruct (server_busy s) eqn:Eb; simpl in Hev; inv_bind;
      unfold loop_measure; simpl.
    + rewrite length_app. simpl. destruct (departure_time s); lia.
    + destruct (departure_time s); lia.
  - unfold departure_event in Hev.
    destruct (queue s) as [|next_pkt rest] eqn:Eq; inv_bind;
      unfold loop_measure; simpl; rewrite Ed, Eq; simpl; lia.
Qed.

Lemma loop_body_Break_beyond (s s' : St) :
  body s = Ok (Break s') ->
  beyond sim_time (next_arrival s) /\ beyond sim_time (departure_time s).
Proof.
  unfold loop_body, departure_branch, before_departure, beyond.
  destruct (next_arrival s) as [a|]; destruct (departure_time s) as [d|];
    simpl;
    try destruct (Qle_bool a d) eqn:Ead; simpl;
    try destruct (Qle_bool a sim_time) eqn:Eas; simpl;
    try destruct (Qltb sim_time d) eqn:Esd;
    intros H; inv_bind;
    rewrite ?Qltb_true, ?Qle_bool_false, ?Qle_bool_iff in *;
    split; auto; lra.
Qed.

Lemma random_expovariate_Ok (lambd : Q) (w : W) :
  0 < lambd -> exists x w', random_expovariate W expovariate lambd w = Ok (x, w').
Proof.
  intros Hl. unfold random_expovariate.
  destruct (Qeq_bool lambd 0) eqn:E.
  - apply Qeq_bool_iff in E. lra.
  - destruct (expovariate lambd w) as [x w']. eauto.
Qed.

(** With a total sampler no pass through the loop raises. *)
Lemma loop_body_Ok (s : St) :
  sampler_total service_time_sampler ->
  basic_invariant arrival_rate sim_time s ->
  exists c, body s = Ok c.
Proof.
  intros Htot (_ & _ & Hrate).
  assert (Hdb : exists c, dbranch s = Ok c).
  { unfold departure_branch. destruct (departure_time s) as [d|]; eauto.
    destruct (Qltb sim_time d); eauto.
    unfold departure_event. destruct (queue s); simpl; eauto.
    destruct (Htot (world s)) as (x & w' & E). rewrite E. simpl. eauto. }
  unfold loop_body. destruct (next_arrival s) as [a|] eqn:Ena; [|exact Hdb].
  destruct (before_departure W a s && Qle_bool a sim_time); [|exact Hdb].
  assert (Hr : 0 < arrival_rate) by (apply Hrate; congruence).
  unfold arrival_event.
  destruct (server_busy s); simpl.
  - destruct (random_expovariate_Ok arrival_rate (world s) Hr)
      as (x & w' & E).
    rewrite E. simpl. eauto.
  - destruct (Htot (world s)) as (x & w' & E). rewrite E. simpl.
    destruct (random_expovariate_Ok arrival_rate w' Hr) as (x' & w'' & E').
    rewrite E'. simpl. eauto.
Qed.

Lemma initial_state_Ok (w : W) :
  exists s, init w = Ok s /\ loop_measure max_packets s = (2 * Z.to_nat max_packets)%nat.
Proof.
  unfold initial_state. destruct (Qltb 0 arrival_rate) eqn:Er.
  - apply Qltb_true in Er.
    destruct (random_expovariate_Ok arrival_rate w Er) as (x & w' & E).
    rewrite E. simpl. eexists. split; [reflexivity|].
    unfold loop_measure. simpl. rewrite Z.sub_0_r. lia.
  - simpl. eexists. split; [reflexivity|].
    unfold loop_measure. simpl. rewrite Z.sub_0_r. lia.
Qed.

Lemma while_loop_terminates (fuel : nat) (s : St) :
  sampler_total service_time_sampler ->
  basic_invariant arrival_rate sim_time s ->
  (loop_measure max_packets s < fuel)%nat ->
  exists s', loop fuel s = Ok s' /\ stopped sim_time max_packets s'.
Proof.
  intros Htot. revert s.
  induction fuel as [|fuel IH]; intros s Hinv Hm; [lia|]. simpl.
  destruct (cond s) eqn:Ec.
  - destruct (loop_body_Ok s Htot Hinv) as [c Eb]. rewrite Eb. simpl.
    destruct c as [s1|s1].
    + apply IH.
      * eapply loop_body_basic; eauto.
      * pose proof (loop_body_measure s s1 Ec Eb). lia.
    + exists s1. split; [reflexivity|].
      pose proof (loop_body_Break s s1 Eb). subst s1.
      right; right. eapply loop_body_Break_beyond; eauto.
  - exists s. split; [reflexivity|].
    unfold loop_condition in Ec. apply andb_false_iff in Ec.
    destruct Ec as [Ec|Ec].
    + left. now apply Qltb_false.
    + right; left. apply Z.ltb_ge in Ec. exact Ec.
Qed.

(** *** Collecting the results *)

Lemma collect_results_Ok (ps : list Packet.t) :
  Forall fields_set ps ->
  collect_results ps = Ok (map total_delay ps, map q_delay ps).
Proof.
  induction 1 as [|p ps [Hs Hd] _ IH]; simpl; [reflexivity|].
  rewrite IH.
  unfold total_delay, q_delay, queueing_delay, departure_of, start_of.
  destruct (Packet.departure_time p) as [d|]; [|congruence].
  destruct (Packet.start_service p) as [x|]; [|congruence].
  simpl. destruct (negb (Qeq_bool x 0)); reflexivity.
Qed.

(** *** The packet cap *)

Lemma run_packet_count (fuel : nat) (w : W) (s : St) :
  run fuel w = Ok s ->
  (0 <= packet_count s <= Z.max 0 max_packets)%Z.
Proof.
  unfold simulate_queue_loop. intros H. inv_bind.
  eapply while_loop_invariant
    with (P := fun s => (0 <= packet_count s <= Z.max 0 max_packets)%Z);
    [| |exact H].
  - intros s1 s2 H1 Hc Hb. unfold loop_condition in Hc.
    apply andb_true_iff in Hc. destruct Hc as [_ Hc]. apply Z.ltb_lt in Hc.
    apply loop_body_Continue in Hb.
    destruct Hb as [(a & _ & _ & _ & Hev)|(d & _ & _ & _ & Hev)].
    + unfold arrival_event in Hev.
      destruct (server_busy s1); simpl in Hev; inv_bind; simpl; lia.
    + unfold departure_event in Hev.
      destruct (queue s1); inv_bind; simpl; lia.
  - match goal with E : init _ = Ok _ |- _ => unfold initial_state in E;
      destruct (Qltb 0 arrival_rate); inv_bind; simpl; lia end.
Qed.

(** *** The first-in-first-out discipline of the two events *)

Lemma arrival_event_queue (s s' : St) (a : Q) :
  server_busy s = true -> arrival s a = Ok s' ->
  queue s' = queue s ++ [Packet.init a] /\
  current_serving s' = current_serving s.
Proof.
  unfold arrival_event. intros Eb Hev. rewrite Eb in Hev.
  simpl in Hev. inv_bind. simpl. auto.
Qed.

Lemma departure_event_queue (s s' : St) (d : Q) (next_pkt : Packet.t)
    (rest : list Packet.t) :
  queue s = next_pkt :: rest -> departure s d = Ok s' ->
  queue s' = rest /\
  exists x, current_serving s' =
            Some (Packet.mk (Packet.arrival_time next_pkt) (Some d) (Some x)).
Proof.
  unfold departure_event. intros Eq Hev. rewrite Eq in Hev.
  inv_bind. simpl. eauto.
Qed.

Lemma departure_event_completed (s s' : St) (d : Q) (p : Packet.t) :
  current_serving s = Some p -> departure s d = Ok s' ->
  packets_completed s' = packets_completed s ++ [p].
Proof.
  unfold departure_event. intros Ecs Hev. rewrite Ecs in Hev.
  destruct (queue s); inv_bind; reflexivity.
Qed.

(** *** What [simulate_queue] returns once the loop is left *)

Lemma simulate_queue_fuel_Ok (fuel : nat) (w : W) (s : St) :
  run fuel w = Ok s ->
  simulate_queue_fuel W expovariate arrival_rate service_time_sampler
    sim_time max_packets fuel w =
  Ok (map total_delay (packets_completed s),
      map q_delay (packets_completed s), world s).
Proof.
  intros H. unfold simulate_queue_fuel. rewrite H. simpl.
  rewrite collect_results_Ok; [reflexivity|].
  destruct (run_basic fuel w s H) as (_ & Hdone & _).
  eapply Forall_impl; [|exact Hdone]. simpl. tauto.
Qed.

(** ** What every run of [simulate_queue] guarantees *)

(** C1, as amended.  In every run each completed packet has a departure
    time at or before [sim_time] (not necessarily strictly before it); the
    returned sequences hold one entry per completed packet and nothing for a
    packet still in service; and a departure event whose time lies beyond
    the horizon leaves the loop without completing anything. *)
Theorem C1_completed_departed_by_horizon (fuel : nat) (w : W) (s : St) :
  run fuel w = Ok s ->
  Forall (departed_by sim_time) (packets_completed s) /\
  simulate_queue_fuel W expovariate arrival_rate service_time_sampler
    sim_time max_packets fuel w =
  Ok (map total_delay (packets_completed s),
      map q_delay (packets_completed s), world s) /\
  (forall s1 : St, beyond sim_time (departure_time s1) ->
                   dbranch s1 = Ok (Break s1)).
Proof.
  intros H. split; [|split].
  - destruct (run_basic fuel w s H) as (_ & Hdone & _).
    eapply Forall_impl; [|exact Hdone]. simpl. tauto.
  - now apply simulate_queue_fuel_Ok.
  - intros s1. unfold beyond, departure_branch.
    destruct (departure_time s1) as [d|]; [|reflexivity].
    intros Hd. apply Qltb_true in Hd. now rewrite Hd.
Qed.

(** C3.  First-in-first-out, no overtaking.  In every run that keeps the
    simulator's contract (the sampler returns only non-negative values, as
    [random.expovariate] does for the inter-arrival times), the completed
    packets are listed in the order of their arrival times and of their
    departure times, so of two completed packets the one that arrived
    strictly earlier departs no later.  The waiting line is released
    strictly in arrival order in every run: an arrival that finds the
    server busy joins the tail and a departure takes the head. *)
Theorem C3_fifo_no_overtaking (fuel : nat) (w : W) (s : St) :
  run fuel w = Ok s ->
  (sampler_nonneg service_time_sampler ->
   expovariate_nonneg expovariate ->
   (forall A B, In A (packets_completed s) -> In B (packets_completed s) ->
                Packet.arrival_time A < Packet.arrival_time B ->
                departure_of A <= departure_of B) /\
   StronglySorted Qle (map Packet.arrival_time (packets_completed s)) /\
   StronglySorted Qle (map departure_of (packets_completed s))) /\
  (forall s1 s2 a, server_busy s1 = true -> arrival s1 a = Ok s2 ->
                   queue s2 = queue s1 ++ [Packet.init a]) /\
  (forall s1 s2 d next_pkt rest,
      queue s1 = next_pkt :: rest -> departure s1 d = Ok s2 ->
      queue s2 = rest /\
      exists x, current_serving s2 =
                Some (Packet.mk (Packet.arrival_time next_pkt)
                                (Some d) (Some x))).
Proof.
  intros H. split; [|split].
  2: { intros s1 s2 a Eb Hev. now apply (arrival_event_queue s1 s2 a Eb Hev). }
  2: { intros s1 s2 d next_pkt rest. apply departure_event_queue. }
  intros Hsv Hia.
  destruct (run_order fuel w s Hsv Hia H)
    as (_ & _ & _ & Hsa & _ & Hsd & _).
  assert (Hsa' : StronglySorted Qle
                   (map Packet.arrival_time (packets_completed s))).
  { unfold arrivals, all_packets in Hsa. rewrite map_app in Hsa.
    clear - Hsa. revert Hsa.
    generalize (map Packet.arrival_time (packets_completed s)).
    intros l. generalize (map Packet.arrival_time
      (match current_serving s with Some p => [p] | None => [] end
       ++ queue s)).
    intros l'. induction l as [|x l IH]; simpl; intros Hs.
    - constructor.
    - inversion Hs as [|? ? Hs' Hx]; subst. constructor; [auto|].
      apply Forall_app in Hx. tauto. }
  split; [|split]; auto.
  intros A B HA HB. now apply sorted_twice_no_overtaking with
    (l := packets_completed s).
Qed.

(** C4.  When the sampler returns only non-negative values, every completed
    packet has all three timestamps set, with
    [arrival_time <= start_service <= departure_time]. *)
Theorem C4_timestamps_ordered (fuel : nat) (w : W) (s : St) :
  sampler_nonneg service_time_sampler ->
  run fuel w = Ok s ->
  Forall timestamps_ordered (packets_completed s).
Proof.
  intros Hsv H. now destruct (run_service fuel w s Hsv H) as (Hdone & _).
Qed.

Lemma q_delay_queueing_delay (p : Packet.t) :
  timestamps_ordered p -> 0 <= Packet.arrival_time p ->
  q_delay p == queueing_delay p.
Proof.
  unfold timestamps_ordered, q_delay, queueing_delay, start_of, truthy.
  intros ((Hs & _) & Has & _) Ha.
  destruct (Packet.start_service p) as [x|]; [|congruence].
  simpl in *. destruct (Qeq_bool x 0) eqn:E; simpl; [|reflexivity].
  apply Qeq_bool_iff in E. lra.
Qed.

(** C5.  Once the loop is left, [simulate_queue] returns two sequences of
    equal length with exactly one entry per completed packet, in the order
    in which the departure events appended the packets; entry [i] of the
    first is that packet's [departure_time - arrival_time].  In every run
    that keeps the simulator's contract (the sampler returns only
    non-negative values, as [random.expovariate] does for the inter-arrival
    times), entry [i] of the second is its
    [start_service - arrival_time], which is 0 for a packet that entered
    service on arrival. *)
Theorem C5_result_sequences (fuel : nat) (w : W) (s : St) :
  run fuel w = Ok s ->
  exists delays queueing_times,
    simulate_queue_fuel W expovariate arrival_rate service_time_sampler
      sim_time max_packets fuel w = Ok (delays, queueing_times, world s) /\
    length delays = length (packets_completed s) /\
    length queueing_times = length (packets_completed s) /\
    delays = map total_delay (packets_completed s) /\
    (sampler_nonneg service_time_sampler ->
     expovariate_nonneg expovariate ->
     Forall2 (fun q p =>
                q == queueing_delay p /\
                (Packet.start_service p = Some (Packet.arrival_time p) ->
                 q == 0))
             queueing_times (packets_completed s)) /\
    (forall s1 s2 d p, current_serving s1 = Some p ->
                       departure s1 d = Ok s2 ->
                       packets_completed s2 = packets_completed s1 ++ [p]).
Proof.
  intros H.
  exists (map total_delay (packets_completed s)),
         (map q_delay (packets_completed s)).
  split; [now apply simulate_queue_fuel_Ok|].
  rewrite !length_map.
  split; [reflexivity|]. split; [reflexivity|]. split; [reflexivity|].
  split.
  - intros Hsv Hia.
    destruct (run_service fuel w s Hsv H) as (Hdone & _).
    destruct (run_order fuel w s Hsv Hia H)
      as (_ & _ & _ & _ & Hba & _ & _).
    unfold arrivals, all_packets in Hba. rewrite map_app in Hba.
    apply Forall_app in Hba. destruct Hba as [Hba _].
    rewrite Forall_map in Hba.
    induction (packets_completed s) as [|p ps IH]; simpl; constructor.
    + inversion Hdone; subst. inversion Hba; subst.
      assert (Hq : q_delay p == queueing_delay p)
        by (apply q_delay_queueing_delay; tauto).
      split; [exact Hq|].
      intros Est. rewrite Hq. unfold queueing_delay, start_of.
      rewrite Est. simpl. lra.
    + inversion Hdone; subst. inversion Hba; subst. now apply IH.
  - intros s1 s2 d p. apply departure_event_completed.
Qed.

(** With a total sampler the call returns, in [iterations_bound] passes. *)
Lemma run_terminates (fuel : nat) (w : W) :
  sampler_total service_time_sampler ->
  (iterations_bound max_packets <= fuel)%nat ->
  exists s, run fuel w = Ok s /\ stopped sim_time max_packets s.
Proof.
  intros Htot Hfuel. unfold iterations_bound in Hfuel.
  destruct (initial_state_Ok w) as (s0 & E0 & Hm).
  destruct (while_loop_terminates fuel s0 Htot) as (s & El & Hstop).
  - eapply initial_state_basic; eauto.
  - lia.
  - exists s. split; [|exact Hstop].
    unfold simulate_queue_loop. rewrite E0. exact El.
Qed.

(** C7.  With a total sampler the loop of [simulate_queue] is left after at
    most [iterations_bound max_packets] passes, whatever the arrival rate
    and the service times: the clock has reached [sim_time], or
    [packet_count] has reached [max_packets], or both pending events lie
    beyond [sim_time]; no more than [max_packets] packets were admitted, and
    the call returns its two sequences. *)
Theorem C7_simulate_queue_terminates (fuel : nat) (w : W) :
  sampler_total service_time_sampler ->
  (iterations_bound max_packets <= fuel)%nat ->
  exists s,
    run fuel w = Ok s /\
    stopped sim_time max_packets s /\
    (packet_count s <= Z.max 0 max_packets)%Z /\
    simulate_queue_fuel W expovariate arrival_rate service_time_sampler
      sim_time max_packets fuel w =
    Ok (map total_delay (packets_completed s),
        map q_delay (packets_completed s), world s).
Proof.
  intros Htot Hfuel.
  destruct (run_terminates fuel w Htot Hfuel) as (s & Hrun & Hstop).
  exists s. repeat split; auto.
  - now apply (run_packet_count fuel w s Hrun).
  - now apply simulate_queue_fuel_Ok.
Qed.

(** X21.  On a finite horizon, with [arrival_rate = 0] no arrival is
    scheduled ([next_arrival] is infinite from the start) and
    [simulate_queue] returns two empty sequences, for every finite
    [sim_time], every sampler and every packet cap; neither [random] nor
    the sampler is called. *)
Theorem X21_no_arrivals_finite_horizon (n : nat) (w : W) :
  arrival_rate == 0 ->
  init w = Ok (mkState 0 Inf [] false Inf [] None 0 w) /\
  simulate_queue_fuel W expovariate arrival_rate service_time_sampler
    sim_time max_packets (S n) w = Ok ([], [], w) /\
  simulate_queue W expovariate arrival_rate service_time_sampler
    sim_time max_packets w = Ok ([], [], w).
Proof.
  intros Hr.
  assert (E0 : init w = Ok (mkState 0 Inf [] false Inf [] None 0 w)).
  { unfold initial_state.
    assert (E : Qltb 0 arrival_rate = false) by (apply Qltb_false; lra).
    now rewrite E. }
  assert (El : forall m,
             simulate_queue_fuel W expovariate arrival_rate
               service_time_sampler sim_time max_packets (S m) w =
             Ok ([], [], w)).
  { intros m. unfold simulate_queue_fuel, simulate_queue_loop.
    rewrite E0. simpl.
    destruct (loop_condition W sim_time max_packets _); reflexivity. }
  split; [exact E0|]. split; [apply El|].
  unfold simulate_queue, iterations_bound. apply El.
Qed.

Lemma reachable_basic (s : St) :
  reachable expovariate arrival_rate service_time_sampler sim_time
    max_packets s ->
  basic_invariant arrival_rate sim_time s.
Proof.
  induction 1 as [w s E|s s' _ IH _ Hb].
  - eapply initial_state_basic; eauto.
  - eapply loop_body_basic; eauto.
Qed.

(** The state in which the loop is left is one it went through. *)
Lemma run_reachable (fuel : nat) (w : W) (s : St) :
  run fuel w = Ok s ->
  reachable expovariate arrival_rate service_time_sampler sim_time
    max_packets s.
Proof.
  unfold simulate_queue_loop. intros H. inv_bind.
  eapply while_loop_invariant
    with (P := reachable expovariate arrival_rate service_time_sampler
                 sim_time max_packets); [| |exact H].
  - intros s1 s2 H1 Hc Hb. eapply reachable_pass; eauto.
  - eapply reachable_initial; eauto.
Qed.

(** C10.  In every state the loop goes through, the state in which it is
    left included, each packet of the completed-packets collection has
    [start_service] and [departure_time] set, and so has the packet in
    service, which is the one a departure event appends; the
    result-collection loop therefore never subtracts from [None] and
    returns its two lists. *)
Theorem C10_completed_fields_set (s : St) :
  reachable expovariate arrival_rate service_time_sampler sim_time
    max_packets s ->
  Forall fields_set (packets_completed s) /\
  (forall p, current_serving s = Some p -> fields_set p) /\
  (forall d s', departure s d = Ok s' ->
                Forall fields_set (packets_completed s')) /\
  collect_results (packets_completed s) =
  Ok (map total_delay (packets_completed s),
      map q_delay (packets_completed s)).
Proof.
  intros H. destruct (reachable_basic s H) as (Hserv & Hdone & _).
  assert (Hset : Forall fields_set (packets_completed s)).
  { eapply Forall_impl; [|exact Hdone]. simpl. tauto. }
  assert (Hcur : forall p, current_serving s = Some p -> fields_set p).
  { intros p Ep. unfold serving_consistent in Hserv.
    destruct (server_busy s).
    - destruct Hserv as (p' & d & Ecs & Hp & _). congruence.
    - destruct Hserv as (_ & _ & Ecs). congruence. }
  split; [exact Hset|]. split; [exact Hcur|].
  split; [|now apply collect_results_Ok].
  intros d s' Hev. unfold departure_event in Hev.
  destruct (current_serving s) as [p|] eqn:Ecs;
    destruct (queue s); inv_bind; simpl;
    auto using Forall_snoc.
Qed.

End SimulatorFacts.

(** ** Scripted runs *)

Lemma Script_sampler_total (times : list Q) :
  sampler_total (Script.sampler times).
Proof.
  intros w. unfold Script.sampler. eauto.
Qed.

Lemma nth_nonneg (l : list Q) (n : nat) :
  Forall (fun x => 0 <= x) l -> 0 <= nth n l 1.
Proof.
  intros Hl. destruct (nth_in_or_default n l 1) as [Hin|Hd].
  - rewrite Forall_forall in Hl. now apply Hl.
  - rewrite Hd. lra.
Qed.

Lemma Script_sampler_nonneg (times : list Q) :
  Forall (fun x => 0 <= x) times -> sampler_nonneg (Script.sampler times).
Proof.
  intros Hl w x w' H. unfold Script.sampler in H. inversion H; subst.
  now apply nth_nonneg.
Qed.

Lemma Script_expovariate_nonneg (draws : list Q) :
  Forall (fun x => 0 <= x) draws ->
  expovariate_nonneg (Script.expovariate draws).
Proof.
  intros Hl lambd w _. unfold Script.expovariate. simpl.
  now apply nth_nonneg.
Qed.

(** Close [Forall (fun x => 0 <= x) l] on a list of literals. *)
Ltac nonneg_literals := repeat (constructor; [lra|]); constructor.

(** Arrivals at 1 and 2, service times 2 and 1, horizon 5: both packets
    complete, the second after waiting one second. *)
Lemma C1_witness :
  exists s, Script.run [1; 1; 5] [2; 1] 1 5 10 = Ok s /\
            Forall (departed_by 5) (packets_completed s).
Proof.
  eexists. split.
  - vm_compute. reflexivity.
  - eapply proj1.
    apply (C1_completed_departed_by_horizon Script.W
             (Script.expovariate [1; 1; 5]) 1 (Script.sampler [2; 1]) 5 10
             (iterations_bound 10) Script.start).
    vm_compute. reflexivity.
Defined.

(** An arrival at 1 with service time 1 and horizon 2: the packet departs
    at 2, which is not strictly before the horizon, and is completed. *)
Lemma C1_counterexample :
  ~ (forall s, Script.run [1; 5] [1] 1 2 10 = Ok s ->
               Forall (departed_before 2) (packets_completed s)).
Proof.
  intros H.
  assert (E : exists s, Script.run [1; 5] [1] 1 2 10 = Ok s /\
                        packets_completed s =
                        [Packet.mk 1 (Some 1) (Some 2)]).
  { eexists. split; vm_compute; reflexivity. }
  destruct E as (s & E & Ec). specialize (H s E). rewrite Ec in H.
  inversion H as [|? ? [_ Hlt] _].
  unfold departure_of in Hlt. simpl in Hlt. lra.
Qed.

Lemma C3_witness :
  exists s, Script.run [1; 1; 5] [2; 1] 1 5 10 = Ok s /\
            StronglySorted Qle (map departure_of (packets_completed s)).
Proof.
  eexists. split.
  - vm_compute. reflexivity.
  - refine (proj2 (proj2
              (proj1 (C3_fifo_no_overtaking Script.W
                        (Script.expovariate [1; 1; 5]) 1
                        (Script.sampler [2; 1]) 5 10
                        (iterations_bound 10) Script.start _ _)
                     (Script_sampler_nonneg [2; 1] _)
                     (Script_expovariate_nonneg [1; 1; 5] _)))).
    + vm_compute. reflexivity.
    + nonneg_literals.
    + nonneg_literals.
Defined.

(** The non-negative service times of the contract are needed.  Arrivals
    at 1 and 2 with service times 5 and -3: the second packet starts
    service at 6 and is stamped with departure time 3, before the departure
    time 6 of the packet that arrived first. *)
Remark negative_service_time_overtakes :
  ~ (forall s, Script.run [1; 1; 97] [5; -3] 1 50 10 = Ok s ->
               forall A B, In A (packets_completed s) ->
                           In B (packets_completed s) ->
                           Packet.arrival_time A < Packet.arrival_time B ->
                           departure_of A <= departure_of B).
Proof.
  intros H.
  assert (E : exists s, Script.run [1; 1; 97] [5; -3] 1 50 10 = Ok s /\
                        packets_completed s =
                        [Packet.mk 1 (Some 1) (Some 6);
                         Packet.mk 2 (Some 6) (Some 3)]).
  { eexists. split; vm_compute; reflexivity. }
  destruct E as (s & E & Ec).
  specialize (H s E (Packet.mk 1 (Some 1) (Some 6))
                (Packet.mk 2 (Some 6) (Some 3))).
  rewrite Ec in H. unfold departure_of in H. simpl in H.
  assert (Hle : 6 <= 3) by (apply H; auto; lra).
  lra.
Qed.

Lemma C4_witness :
  exists s, Script.run [1; 1; 5] [2; 1] 1 5 10 = Ok s /\
            Forall timestamps_ordered (packets_completed s).
Proof.
  eexists. split.
  - vm_compute. reflexivity.
  - apply (C4_timestamps_ordered Script.W
             (Script.expovariate [1; 1; 5]) 1 (Script.sampler [2; 1]) 5 10
             (iterations_bound 10) Script.start).
    + apply Script_sampler_nonneg. nonneg_literals.
    + vm_compute. reflexivity.
Defined.

Lemma C5_witness :
  exists s delays queueing_times,
    Script.run [1; 1; 5] [2; 1] 1 5 10 = Ok s /\
    Script.results [1; 1; 5] [2; 1] 1 5 10 =
    Ok (delays, queueing_times, world s) /\
    length delays = length (packets_completed s) /\
    Forall2 (fun q p => q == queueing_delay p)
            queueing_times (packets_completed s).
Proof.
  eexists.
  destruct (C5_result_sequences Script.W
              (Script.expovariate [1; 1; 5]) 1 (Script.sampler [2; 1]) 5 10
              (iterations_bound 10) Script.start _
              ltac:(vm_compute; reflexivity))
    as (delays & queueing_times & E & Hl & _ & _ & Hq & _).
  exists delays, queueing_times. split; [vm_compute; reflexivity|].
  split; [exact E|]. split; [exact Hl|].
  eapply Forall2_impl;
    [|exact (Hq (Script_sampler_nonneg [2; 1] ltac:(nonneg_literals))
                (Script_expovariate_nonneg [1; 1; 5]
                   ltac:(nonneg_literals)))].
  simpl. intros q p Hqp. exact (proj1 Hqp).
Defined.

(** The non-negative service times of the contract are needed here too.
    Arrivals at 1, 2 and 3 with service times 5, -6 and 1: the third packet
    starts service at time 0, which line 73 takes for an unset field, and
    gets the entry 0 where [start_service - arrival_time] is -3. *)
Remark negative_service_time_zero_start :
  ~ (forall s delays queueing_times w',
        Script.run [1; 1; 1; 97] [5; -6; 1] 1 50 10 = Ok s ->
        Script.results [1; 1; 1; 97] [5; -6; 1] 1 50 10 =
        Ok (delays, queueing_times, w') ->
        Forall2 (fun q p => q == queueing_delay p)
                queueing_times (packets_completed s)).
Proof.
  intros H.
  assert (E : exists s,
             Script.run [1; 1; 1; 97] [5; -6; 1] 1 50 10 = Ok s /\
             Script.results [1; 1; 1; 97] [5; -6; 1] 1 50 10 =
             Ok ([5; -2; -2], [0; 4; 0], world s) /\
             packets_completed s =
             [Packet.mk 1 (Some 1) (Some 6);
              Packet.mk 2 (Some 6) (Some 0);
              Packet.mk 3 (Some 0) (Some 1)]).
  { eexists. split; [|split]; vm_compute; reflexivity. }
  destruct E as (s & E & Er & Ec).
  specialize (H s _ _ _ E Er). rewrite Ec in H.
  inversion H as [|? ? ? ? _ H1]; subst.
  inversion H1 as [|? ? ? ? _ H2]; subst.
  inversion H2 as [|? ? ? ? H3 _]; subst.
  unfold queueing_delay, start_of in H3. simpl in H3. lra.
Qed.

Lemma C7_witness :
  exists s, Script.run [1; 1; 5] [2; 1] 1 5 10 = Ok s /\ stopped 5 10 s.
Proof.
  destruct (C7_simulate_queue_terminates Script.W
              (Script.expovariate [1; 1; 5]) 1 (Script.sampler [2; 1]) 5 10
              (iterations_bound 10) Script.start
              (Script_sampler_total [2; 1]) (le_n _))
    as (s & E & Hstop & _).
  exists s. split; [exact E|exact Hstop].
Defined.

Lemma X21_witness :
  Script.results [1] [1] 0 3 10 = Ok ([], [], Script.start).
Proof.
  eapply (fun H => proj2 (proj2 H)).
  apply (X21_no_arrivals_finite_horizon Script.W (Script.expovariate [1]) 0
           (Script.sampler [1]) 3 10 O Script.start).
  reflexivity.
Defined.

Lemma C10_witness :
  exists s, Script.run [1; 1; 5] [2; 1] 1 5 10 = Ok s /\
            Forall fields_set (packets_completed s).
Proof.
  eexists. split.
  - vm_compute. reflexivity.
  - eapply proj1.
    apply (C10_completed_fields_set Script.W
             (Script.expovariate [1; 1; 5]) 1 (Script.sampler [2; 1]) 5 10).
    apply run_reachable with (fuel := iterations_bound 10)
                             (w := Script.start).
    vm_compute. reflexivity.
Defined.

(** ** The experiment runner *)

Lemma Qinv_nonzero (x : Q) : ~ x == 0 -> ~ 1 / x == 0.
Proof.
  intros Hx H. assert (E : x * (1 / x) == 1) by (field; exact Hx).
  rewrite H in E. lra.
Qed.

Lemma analytic_mm1_columns (mu rho : Q) :
  exists analytic_total analytic_queue,
    analytic_mm1 mu (rho * mu) rho = Ok (analytic_total, analytic_queue) /\
    ((rho * mu < mu ->
      analytic_total = Real (1 / (mu - rho * mu)) /\
      analytic_queue = Real (rho / (mu - rho * mu))) /\
     (mu <= rho * mu ->
      analytic_total = PosInf /\ analytic_queue = PosInf)).
Proof.
  unfold analytic_mm1. destruct (Qltb (rho * mu) mu) eqn:E.
  - apply Qltb_true in E.
    rewrite !pydiv_Ok by lra. simpl.
    eexists; eexists; split; [reflexivity|]. split; [auto|]. intros; lra.
  - apply Qltb_false in E.
    eexists; eexists; split; [reflexivity|]. split; [intros; lra|auto].
Qed.

Section RunnerFacts.

Variable W : Type.
Variable expovariate : Q -> W -> Q * W.

Lemma mm1_sampler_total (service_time_mean : Q) :
  ~ service_time_mean == 0 ->
  sampler_total (mm1_sampler W expovariate service_time_mean).
Proof.
  intros Hm w. unfold mm1_sampler. rewrite pydiv_Ok by exact Hm. simpl.
  unfold random_expovariate.
  destruct (Qeq_bool (1 / service_time_mean) 0) eqn:E.
  - apply Qeq_bool_iff in E. now apply Qinv_nonzero in E.
  - destruct (expovariate (1 / service_time_mean) w) as [x w']. eauto.
Qed.

Lemma md1_sampler_total (service_time_mean : Q) :
  sampler_total (md1_sampler W service_time_mean).
Proof.
  intros w. unfold md1_sampler. eauto.
Qed.

(** With a total sampler [simulate_queue] returns. *)
Lemma simulate_queue_returns (arrival_rate : Q)
    (sampler : W -> outcome (Q * W)) (sim_time : Q) (max_packets : Z)
    (w : W) :
  sampler_total sampler ->
  exists delays queueing_times w',
    simulate_queue W expovariate arrival_rate sampler sim_time max_packets w =
    Ok (delays, queueing_times, w').
Proof.
  intros Htot.
  destruct (run_terminates W expovariate arrival_rate sampler sim_time
              max_packets (iterations_bound max_packets) w Htot (le_n _))
    as (s & Hrun & _).
  unfold simulate_queue.
  rewrite (simulate_queue_fuel_Ok W expovariate arrival_rate sampler
             sim_time max_packets _ w s Hrun).
  eauto.
Qed.

Lemma experiment_row_Ok (mu sim_time r : Q) (w : W) :
  ~ mu == 0 ->
  exists row w',
    experiment_row W expovariate mu (1 / mu) sim_time r w = Ok (row, w') /\
    row_for mu r row.
Proof.
  intros Hmu. unfold experiment_row.
  destruct (simulate_queue_returns (r * mu)
              (mm1_sampler W expovariate (1 / mu)) sim_time
              default_max_packets w
              (mm1_sampler_total (1 / mu) (Qinv_nonzero mu Hmu)))
    as (d1 & q1 & w1 & E1).
  rewrite E1. simpl.
  destruct (simulate_queue_returns (r * mu) (md1_sampler W (1 / mu))
              sim_time default_max_packets w1 (md1_sampler_total (1 / mu)))
    as (d2 & q2 & w2 & E2).
  rewrite E2. simpl.
  destruct (analytic_mm1_columns mu r) as (at_ & aq & Ea & Hcols).
  rewrite Ea. simpl.
  eexists; eexists; split; [reflexivity|].
  unfold row_for, analytic_columns; simpl. repeat split; tauto.
Qed.

Lemma experiment_rows_Ok (mu sim_time : Q) (rho_list : list Q) (w : W) :
  ~ mu == 0 ->
  exists rows w',
    experiment_rows W expovariate mu (1 / mu) sim_time rho_list w =
    Ok (rows, w') /\
    Forall2 (row_for mu) rho_list rows.
Proof.
  intros Hmu. revert w.
  induction rho_list as [|r rest IH]; intros w; simpl.
  - eexists; eexists; split; [reflexivity|constructor].
  - destruct (experiment_row_Ok mu sim_time r w Hmu)
      as (row & w1 & E1 & Hrow).
    rewrite E1. simpl.
    destruct (IH w1) as (rows & w2 & E2 & Hrows).
    rewrite E2. simpl.
    eexists; eexists; split; [reflexivity|]. now constructor.
Qed.

(** The two divisions of lines 90-91 decide whether the runner raises. *)
Lemma run_experiments_cases (packet_size_bytes bandwidth_bps : Q)
    (rho_list : option (list Q)) (sim_time : Q) (w : W) :
  let mu := bandwidth_bps / (packet_size_bytes * 8) in
  ((packet_size_bytes == 0 \/ bandwidth_bps == 0) /\
   run_experiments W expovariate packet_size_bytes bandwidth_bps rho_list
     sim_time w = Raise ZeroDivisionError) \/
  (~ packet_size_bytes == 0 /\ ~ bandwidth_bps == 0 /\
   exists rows w',
     run_experiments W expovariate packet_size_bytes bandwidth_bps rho_list
       sim_time w = Ok (rows, w') /\
     Forall2 (row_for mu) (rho_values rho_list) rows).
Proof.
  intros mu. unfold run_experiments.
  destruct (Qeq_dec packet_size_bytes 0) as [Hp|Hp].
  - left. split; [now left|].
    rewrite pydiv_Raise by (rewrite Hp; reflexivity). reflexivity.
  - assert (HL : ~ packet_size_bytes * 8 == 0) by lra.
    rewrite (pydiv_Ok _ _ HL). simpl.
    destruct (Qeq_dec bandwidth_bps 0) as [Hb|Hb].
    + left. split; [now right|].
      rewrite pydiv_Raise; [reflexivity|].
      rewrite Hb. field. assumption.
    + assert (Hmu : ~ mu == 0).
      { unfold mu. intros H.
        assert (E : bandwidth_bps ==
                    bandwidth_bps / (packet_size_bytes * 8) *
                    (packet_size_bytes * 8)) by (field; assumption).
        rewrite H in E. lra. }
      right. split; [exact Hp|]. split; [exact Hb|].
      fold mu. rewrite (pydiv_Ok _ _ Hmu). simpl.
      apply experiment_rows_Ok. exact Hmu.
Qed.


(** C6.  The rows the runner returns follow [rho_list]; with
    [mu = bandwidth_bps / (packet_size_bytes * 8)] and [lam = rho * mu],
    the row for [rho] carries [rho], [lam], [mu] and [1 / mu], and its
    analytic columns are [1 / (mu - lam)] and [rho / (mu - lam)] when
    [lam < mu] and both infinite when [mu <= lam].  The runner does return
    its rows when the packet size and the bandwidth are not zero. *)
Theorem C6_analytic_columns (packet_size_bytes bandwidth_bps : Q)
    (rho_list : option (list Q)) (sim_time : Q) (w : W) :
  (forall rows w',
      run_experiments W expovariate packet_size_bytes bandwidth_bps rho_list
        sim_time w = Ok (rows, w') ->
      Forall2 (row_for (bandwidth_bps / (packet_size_bytes * 8)))
              (rho_values rho_list) rows) /\
  (~ packet_size_bytes == 0 -> ~ bandwidth_bps == 0 ->
   exists rows w',
     run_experiments W expovariate packet_size_bytes bandwidth_bps rho_list
       sim_time w = Ok (rows, w') /\
     Forall2 (row_for (bandwidth_bps / (packet_size_bytes * 8)))
             (rho_values rho_list) rows).
Proof.
  destruct (run_experiments_cases packet_size_bytes bandwidth_bps rho_list
              sim_time w) as [(Hz & E)|(Hp & Hb & rows & w' & E & Hrows)].
  - split.
    + intros rows w' H. congruence.
    + intros; tauto.
  - split.
    + intros rows0 w0 H. rewrite E in H. inversion H; subst. exact Hrows.
    + intros _ _. exists rows, w'. split; [exact E|exact Hrows].
Qed.

End RunnerFacts.



Lemma C6_witness :
  exists rows w',
    run_experiments Script.W (Script.expovariate [1]) 1500 10000000
      (Some [1 # 2]) (1 # 2) Script.start = Ok (rows, w') /\
    Forall2 (row_for (10000000 / (1500 * 8))) [1 # 2] rows.
Proof.
  eexists; eexists. split.
  - vm_compute. reflexivity.
  - apply (proj1 (C6_analytic_columns Script.W (Script.expovariate [1])
                    1500 10000000 (Some [1 # 2]) (1 # 2) Script.start)
             _ (2%nat, O)).
    vm_compute. reflexivity.
Defined.

(** ** The closed-form delay formulas *)

Lemma round_half_even_error (y : Q) :
  Qabs (inject_Z (round_half_even y) - y) <= 1 # 2.
Proof.
  unfold round_half_even.
  pose proof (Qfloor_le y) as Hlo. pose proof (Qlt_floor y) as Hhi.
  rewrite inject_Z_plus in Hhi. change (inject_Z 1) with 1 in Hhi.
  apply Qabs_Qle_condition.
  destruct (Qcompare (y - inject_Z (Qfloor y)) (1 # 2)) eqn:E.
  - apply Qeq_alt in E.
    destruct (Z.even (Qfloor y)); rewrite ?inject_Z_plus;
      change (inject_Z 1) with 1; split; lra.
  - apply Qlt_alt in E. split; lra.
  - apply Qgt_alt in E. rewrite inject_Z_plus.
    change (inject_Z 1) with 1. split; lra.
Qed.

(** [round(x, 6)] is a multiple of one millionth, at most half a millionth
    from [x]. *)
Lemma py_round_6 (x : Q) :
  Qabs (py_round x 6 - x) <= 1 # 2000000 /\
  exists k : Z, py_round x 6 = inject_Z k / 1000000.
Proof.
  unfold py_round. change (inject_Z (10 ^ Z.of_nat 6)) with (1000000 : Q).
  split; [|eexists; reflexivity].
  pose proof (round_half_even_error (x * 1000000)) as H.
  apply Qabs_Qle_condition in H. apply Qabs_Qle_condition.
  set (r := inject_Z (round_half_even (x * 1000000))) in *.
  assert (E : r / 1000000 - x == (r - x * 1000000) / 1000000) by field.
  rewrite E. destruct H as [H1 H2]. split.
  - apply Qle_shift_div_l; lra.
  - apply Qle_shift_div_r; lra.
Qed.

(** C9, as amended.  [transmission_delay] returns [size / bandwidth] and
    [congestion_delay] returns [queue_length / (service - arrival)], each
    rounded to six decimal places (a multiple of one millionth at most half
    a millionth away); a zero bandwidth, or a service rate at or below the
    arrival rate, gives the infinite delay and no exception. *)
Theorem C9_delay_formulas
    (packet_size_bits bandwidth_bps queue_length arrival service : Q) :
  (bandwidth_bps == 0 ->
   transmission_delay packet_size_bits bandwidth_bps = Ok PosInf) /\
  (~ bandwidth_bps == 0 ->
   transmission_delay packet_size_bits bandwidth_bps =
   Ok (Real (py_round (packet_size_bits / bandwidth_bps) 6))) /\
  (service <= arrival ->
   congestion_delay queue_length arrival service = Ok PosInf) /\
  (arrival < service ->
   congestion_delay queue_length arrival service =
   Ok (Real (py_round (queue_length / (service - arrival)) 6))) /\
  (forall x, Qabs (py_round x 6 - x) <= 1 # 2000000 /\
             exists k : Z, py_round x 6 = inject_Z k / 1000000).
Proof.
  unfold transmission_delay, congestion_delay.
  split; [|split; [|split; [|split]]].
  - intros H. now rewrite pydiv_Raise.
  - intros H. now rewrite pydiv_Ok.
  - intros H. apply Qle_bool_iff in H. now rewrite H.
  - intros H. apply Qle_bool_false in H. rewrite H.
    apply Qle_bool_false in H. rewrite pydiv_Ok by lra. reflexivity.
  - apply py_round_6.
Qed.

Lemma C9_witness :
  congestion_delay 10 5 10 = Ok (Real (py_round (10 / (10 - 5)) 6)) /\
  transmission_delay 8000 0 = Ok PosInf.
Proof.
  split.
  - apply (C9_delay_formulas 8000 0 10 5 10). reflexivity.
  - apply (C9_delay_formulas 8000 0 10 5 10). reflexivity.
Defined.

(** [transmission_delay(1, 3)] is 0.333333, not one third. *)
Lemma C9_counterexample :
  ~ (exists r, transmission_delay 1 3 = Ok (Real r) /\ r == 1 / 3).
Proof.
  intros (r & E & Hr). vm_compute in E. inversion E; subst.
  revert Hr. unfold Qeq. simpl. lia.
Qed.

(** * Further properties of the queue simulator *)

Section SimulatorMore.

Variable W : Type.
Variable expovariate : Q -> W -> Q * W.
Variable arrival_rate : Q.
Variable service_time_sampler : W -> outcome (Q * W).
Variable sim_time : Q.
Variable max_packets : Z.

Local Abbreviation St := (State W).
Local Abbreviation body :=
  (loop_body W expovariate arrival_rate service_time_sampler sim_time).
Local Abbreviation cond := (loop_condition W sim_time max_packets).
Local Abbreviation loop :=
  (while_loop W expovariate arrival_rate service_time_sampler sim_time
     max_packets).
Local Abbreviation arrival :=
  (arrival_event W expovariate arrival_rate service_time_sampler).
Local Abbreviation departure := (departure_event W service_time_sampler).
Local Abbreviation init := (initial_state W expovariate arrival_rate).
Local Abbreviation run :=
  (simulate_queue_loop W expovariate arrival_rate service_time_sampler
     sim_time max_packets).
Local Abbreviation reach :=
  (reachable expovariate arrival_rate service_time_sampler sim_time
     max_packets).
Local Abbreviation sim_fuel :=
  (simulate_queue_fuel W expovariate arrival_rate service_time_sampler
     sim_time max_packets).

(** Induction over the passes of the loop, with the invariant of every run
    at hand. *)
Lemma reachable_invariant (P : St -> Prop) :
  (forall w s, init w = Ok s -> P s) ->
  (forall s s', basic_invariant arrival_rate sim_time s -> P s ->
                cond s = true -> body s = Ok (Continue s') -> P s') ->
  forall s, reach s -> P s.
Proof.
  intros Hinit Hstep s H.
  induction H as [w s E|s s' Hr IH Hc Hb].
  - eapply Hinit; eauto.
  - eapply Hstep; eauto.
    apply (reachable_basic W expovariate arrival_rate service_time_sampler
             sim_time max_packets s Hr).
Qed.

Lemma initial_state_fields (w : W) (s : St) :
  init w = Ok s ->
  t s = 0 /\ queue s = [] /\ server_busy s = false /\
  packets_completed s = [] /\ current_serving s = None /\
  packet_count s = 0%Z.
Proof.
  unfold initial_state. intros H.
  destruct (Qltb 0 arrival_rate); inv_bind; simpl; auto 10.
Qed.

(** X1.  In every state the loop goes through, [server_busy] is true
    exactly when [current_serving] is set and exactly when
    [departure_time] is finite; the packet in service carries the
    scheduled departure time; and nothing waits while the server is
    idle. *)
Theorem X1_server_state_consistent (s : St) :
  reachable expovariate arrival_rate service_time_sampler sim_time
    max_packets s ->
  (server_busy s = true <-> current_serving s <> None) /\
  (server_busy s = true <-> departure_time s <> Inf) /\
  (server_busy s = false -> queue s = []) /\
  (forall p, current_serving s = Some p ->
             exists d, Packet.departure_time p = Some d /\
                       departure_time s = Fin d).
Proof.
  intros H.
  destruct (reachable_basic W expovariate arrival_rate service_time_sampler
              sim_time max_packets s H) as (Hserv & _ & _).
  unfold serving_consistent in Hserv.
  destruct (server_busy s).
  - destruct Hserv as (p & d & Ecs & _ & Epd & Ed).
    repeat split; intros; try congruence.
    exists d. split; congruence.
  - destruct Hserv as (Eq & Ed & Ecs).
    repeat split; intros; try congruence.
Qed.

(** The packets of a state and its counter. *)
Lemma all_packets_length (s : St) :
  serving_consistent s ->
  length (all_packets s) =
  (length (packets_completed s) + length (queue s) + in_service s)%nat.
Proof.
  unfold serving_consistent, all_packets, in_service.
  destruct (server_busy s).
  - intros (p & d & Ecs & _). rewrite Ecs, !length_app. simpl. lia.
  - intros (Eq & _ & Ecs). rewrite Ecs, Eq, !length_app. simpl. lia.
Qed.

Lemma arrival_event_count (s s' : St) (a : Q) :
  arrival s a = Ok s' -> packet_count s' = (packet_count s + 1)%Z.
Proof.
  unfold arrival_event. intros Hev.
  destruct (server_busy s); simpl in Hev; inv_bind; reflexivity.
Qed.

Lemma departure_event_count (s s' : St) (d : Q) :
  departure s d = Ok s' -> packet_count s' = packet_count s.
Proof.
  unfold departure_event. intros Hev.
  destruct (queue s); inv_bind; reflexivity.
Qed.

(** X2.  In every state the loop goes through, [packet_count] is the
    number of packets completed, waiting and in service together, and it
    lies between 0 and [max_packets] (0 when [max_packets] is negative). *)
Theorem X2_packets_conserved (s : St) :
  reach s ->
  packet_count s =
  Z.of_nat (length (packets_completed s) + length (queue s) + in_service s) /\
  (0 <= packet_count s <= Z.max 0 max_packets)%Z.
Proof.
  intros H.
  pose proof (reachable_basic W expovariate arrival_rate
                service_time_sampler sim_time max_packets s H)
    as (Hserv & _ & _).
  rewrite <- (all_packets_length s Hserv).
  rewrite <- (length_map Packet.arrival_time). fold (arrivals s).
  clear Hserv. revert s H.
  apply reachable_invariant.
  - intros w s E. destruct (initial_state_fields w s E)
      as (_ & Eq & _ & Ec & Ecs & Epc).
    unfold arrivals, all_packets. rewrite Eq, Ec, Ecs, Epc. simpl. lia.
  - intros s s' (Hserv & _ & _) [IH1 IH2] Hc Hb.
    unfold loop_condition in Hc. apply andb_true_iff in Hc.
    destruct Hc as [_ Hc]. apply Z.ltb_lt in Hc.
    apply loop_body_Continue in Hb.
    destruct Hb as [(a & _ & _ & _ & Hev)|(d & _ & _ & _ & Hev)].
    + destruct (arrival_event_arrivals W expovariate arrival_rate
                  service_time_sampler s s' a Hserv Hev) as (Earr & _ & _).
      rewrite Earr, length_app, (arrival_event_count s s' a Hev). simpl.
      lia.
    + destruct (departure_event_arrivals W service_time_sampler s s' d Hev)
        as (Earr & _).
      rewrite Earr, (departure_event_count s s' d Hev). lia.
Qed.

(** X3.  With [sim_time <= 0] or [max_packets <= 0] the loop body never
    runs: [simulate_queue] returns two empty sequences, whatever the
    arrival rate and whatever the sampler would do. *)
Theorem X3_empty_horizon_or_cap (w : W) :
  sim_time <= 0 \/ (max_packets <= 0)%Z ->
  exists w',
    simulate_queue W expovariate arrival_rate service_time_sampler sim_time
      max_packets w = Ok ([], [], w').
Proof.
  intros Hedge.
  destruct (initial_state_Ok W expovariate arrival_rate max_packets w)
    as (s0 & E0 & _).
  destruct (initial_state_fields w s0 E0) as (Et & _ & _ & Ec & _ & Epc).
  assert (Hc : cond s0 = false).
  { unfold loop_condition. rewrite Et, Epc. apply andb_false_iff.
    destruct Hedge as [Hs|Hm].
    - left. now apply Qltb_false.
    - right. now apply Z.ltb_ge. }
  exists (world s0).
  unfold simulate_queue, simulate_queue_fuel, simulate_queue_loop,
    iterations_bound.
  rewrite E0. simpl. rewrite Hc. simpl. rewrite Ec. reflexivity.
Qed.

(** X4.  When the sampler returns only non-negative values, every queueing
    entry [simulate_queue] returns is non-negative and no larger than the
    total delay of the same packet. *)
Theorem X4_delays_nonnegative (fuel : nat) (w : W) (s : St) :
  sampler_nonneg service_time_sampler ->
  run fuel w = Ok s ->
  exists delays queueing_times,
    sim_fuel fuel w = Ok (delays, queueing_times, world s) /\
    Forall2 (fun d q => 0 <= q /\ q <= d) delays queueing_times.
Proof.
  intros Hsv H.
  exists (map total_delay (packets_completed s)),
         (map q_delay (packets_completed s)).
  split; [now apply simulate_queue_fuel_Ok|].
  destruct (run_service W expovariate arrival_rate service_time_sampler
              sim_time max_packets fuel w s Hsv H) as (Hdone & _).
  induction Hdone as [|p ps Hp _ IH]; simpl; constructor; [|exact IH].
  destruct Hp as (_ & Has & Hsd).
  unfold q_delay, queueing_delay, total_delay.
  destruct (truthy (Packet.start_service p)); split; lra.
Qed.

(** *** Where an exception can come from *)

Lemma loop_body_Raise (s : St) (e : exn) :
  basic_invariant arrival_rate sim_time s ->
  body s = Raise e -> exists w, service_time_sampler w = Raise e.
Proof.
  intros (_ & _ & Hrate).
  assert (Hdb : departure_branch W service_time_sampler sim_time s =
                Raise e -> exists w, service_time_sampler w = Raise e).
  { unfold departure_branch, departure_event.
    destruct (departure_time s) as [d|]; [|discriminate].
    destruct (Qltb sim_time d); [discriminate|].
    destruct (queue s); simpl; [discriminate|].
    destruct (service_time_sampler (world s)) as [[x w']| |] eqn:E;
      simpl; try discriminate.
    intros H. inversion H; subst. eauto. }
  unfold loop_body. destruct (next_arrival s) as [a|] eqn:Ena; [|exact Hdb].
  destruct (before_departure W a s && Qle_bool a sim_time); [|exact Hdb].
  assert (Hr : 0 < arrival_rate) by (apply Hrate; congruence).
  unfold arrival_event. destruct (server_busy s); simpl.
  - destruct (random_expovariate_Ok W expovariate arrival_rate (world s) Hr)
      as (x & w' & E).
    rewrite E. simpl. discriminate.
  - destruct (service_time_sampler (world s)) as [[x w']| |] eqn:E; simpl.
    + destruct (random_expovariate_Ok W expovariate arrival_rate w' Hr)
        as (x' & w'' & E').
      rewrite E'. simpl. discriminate.
    + intros H. inversion H; subst. eauto.
    + discriminate.
Qed.

Lemma while_loop_Raise (fuel : nat) (s : St) (e : exn) :
  basic_invariant arrival_rate sim_time s ->
  loop fuel s = Raise e -> exists w, service_time_sampler w = Raise e.
Proof.
  revert s. induction fuel as [|fuel IH]; simpl; intros s Hinv H.
  - discriminate.
  - destruct (cond s); [|discriminate].
    destruct (body s) as [[s1|s1]| |] eqn:Eb; simpl in H;
      try discriminate.
    + apply (IH s1); [|exact H].
      eapply loop_body_basic; eauto.
    + inversion H; subst. eapply loop_body_Raise; eauto.
Qed.

(** X5.  On a finite horizon ([sim_time] a finite number), an exception
    that leaves [simulate_queue] was raised by the sampler:
    [random.expovariate] is not called with a zero rate, and the
    result-collection loop never meets an unset field. *)
Theorem X5_exceptions_come_from_sampler (fuel : nat) (w : W) (e : exn) :
  sim_fuel fuel w = Raise e ->
  exists w', service_time_sampler w' = Raise e.
Proof.
  unfold simulate_queue_fuel. intros H.
  destruct (run fuel w) as [s| |] eqn:Er; simpl in H; try discriminate.
  - destruct (reachable_basic W expovariate arrival_rate
                service_time_sampler sim_time max_packets s
                (run_reachable W expovariate arrival_rate
                   service_time_sampler sim_time max_packets fuel w s Er))
      as (_ & Hdone & _).
    rewrite collect_results_Ok in H; [discriminate|].
    eapply Forall_impl; [|exact Hdone]. simpl. tauto.
  - inversion H; subst. clear H. unfold simulate_queue_loop in Er.
    destruct (initial_state_Ok W expovariate arrival_rate max_packets w)
      as (s0 & E0 & _).
    rewrite E0 in Er. simpl in Er.
    eapply while_loop_Raise; [|exact Er].
    eapply initial_state_basic; eauto.
Qed.

(** *** A sampler that always returns the same value *)

Lemma loop_body_constant (c : Q) (s s' : St) :
  sampler_constant c service_time_sampler ->
  (Forall (fun p => departure_of p = start_of p + c) (packets_completed s) /\
   forall p, current_serving s = Some p ->
             departure_of p = start_of p + c) ->
  body s = Ok (Continue s') ->
  Forall (fun p => departure_of p = start_of p + c) (packets_completed s') /\
  forall p, current_serving s' = Some p -> departure_of p = start_of p + c.
Proof.
  intros Hc [Hdone Hcur] Hb.
  apply loop_body_Continue in Hb.
  destruct Hb as [(a & _ & _ & _ & Hev)|(d & _ & _ & _ & Hev)].
  - unfold arrival_event in Hev.
    destruct (server_busy s); simpl in Hev; inv_bind; simpl;
      (split; [assumption|]); [assumption|].
    match goal with E : service_time_sampler _ = Ok _ |- _ =>
      apply Hc in E; subst end.
    intros p Hp. inversion Hp; subst. reflexivity.
  - unfold departure_event in Hev.
    destruct (current_serving s) as [p0|] eqn:Ecs;
      destruct (queue s); inv_bind; simpl;
      repeat match goal with E : service_time_sampler _ = Ok _ |- _ =>
        apply Hc in E; subst end;
      (split; [auto using Forall_snoc|]);
      intros p Hp; inversion Hp; subst; reflexivity.
Qed.

(** X6.  With a sampler that always returns [c], every completed packet
    is stamped with the departure time [start_service + c]. *)
Theorem X6_constant_service_time (c : Q) (fuel : nat) (w : W) (s : St) :
  sampler_constant c service_time_sampler ->
  run fuel w = Ok s ->
  Forall (fun p => departure_of p = start_of p + c) (packets_completed s).
Proof.
  intros Hc H.
  unfold simulate_queue_loop in H. inv_bind.
  match goal with E : init _ = Ok _ |- _ =>
    destruct (initial_state_fields _ _ E) as (_ & _ & _ & Ec0 & Ecs0 & _)
  end.
  eapply proj1.
  eapply while_loop_invariant
    with (P := fun s =>
                 Forall (fun p => departure_of p = start_of p + c)
                        (packets_completed s) /\
                 forall p, current_serving s = Some p ->
                           departure_of p = start_of p + c);
    [| |exact H].
  - intros s1 s2 H1 _ Hb. eapply loop_body_constant; eauto.
  - rewrite Ec0, Ecs0. split; [constructor|discriminate].
Qed.

(** *** The waiting line and the horizon *)

(** X7.  In every state the loop goes through, the packets of the waiting
    line have neither [start_service] nor [departure_time] set, and every
    packet admitted so far arrived at or before [sim_time]. *)
Theorem X7_waiting_line_untouched (s : St) :
  reach s ->
  Forall waiting (queue s) /\
  Forall (fun p => Packet.arrival_time p <= sim_time) (all_packets s).
Proof.
  intros H.
  cut (Forall waiting (queue s) /\
       Forall (fun p => Packet.arrival_time p <= sim_time)
              (packets_completed s) /\
       (forall p, current_serving s = Some p ->
                  Packet.arrival_time p <= sim_time) /\
       Forall (fun p => Packet.arrival_time p <= sim_time) (queue s)).
  { intros (Hw & Hc & Hs & Hq). split; [exact Hw|].
    unfold all_packets. rewrite !Forall_app. repeat split; auto.
    destruct (current_serving s); constructor; auto. }
  revert s H. apply reachable_invariant.
  - intros w s E.
    destruct (initial_state_fields w s E) as (_ & Eq & _ & Ec & Ecs & _).
    rewrite Eq, Ec, Ecs. repeat split; try constructor. discriminate.
  - intros s s' _ (Hw & Hc & Hs & Hq) _ Hb.
    apply loop_body_Continue in Hb.
    destruct Hb as [(a & _ & _ & Ha & Hev)|(d & _ & _ & _ & Hev)].
    + unfold arrival_event in Hev.
      destruct (server_busy s); simpl in Hev; inv_bind; simpl;
        repeat split; auto.
      * apply Forall_snoc; [exact Hw|]. split; reflexivity.
      * apply Forall_snoc; [exact Hq|]. exact Ha.
      * intros p Hp. inversion Hp; subst. exact Ha.
    + unfold departure_event in Hev.
      destruct (current_serving s) as [p0|] eqn:Ecs;
        destruct (queue s) as [|next_pkt rest]; inv_bind; simpl;
        inversion Hw; inversion Hq; subst;
        repeat split; auto using Forall_snoc; try discriminate;
        intros p Hp; inversion Hp; subst; simpl; assumption.
Qed.

(** *** The clock *)

Lemma reachable_order (s : St) :
  sampler_nonneg service_time_sampler ->
  expovariate_nonneg expovariate ->
  reach s -> order_invariant s.
Proof.
  intros Hsv Hia. revert s. apply reachable_invariant.
  - intros w s E. eapply initial_state_order; eauto.
  - intros s s' Hinv IH _ Hb. eapply loop_body_order; eauto.
Qed.

Lemma reachable_service (s : St) :
  sampler_nonneg service_time_sampler ->
  reach s -> service_invariant s.
Proof.
  intros Hsv. revert s. apply reachable_invariant.
  - intros w s E. eapply initial_state_service; eauto.
  - intros s s' Hinv IH _ Hb. eapply loop_body_service; eauto.
Qed.

(** X9.  When neither the sampler nor [random.expovariate] returns a
    negative value, simulated time never goes back: every pass through the
    loop moves [t] from a non-negative value to one at least as large and
    at most [sim_time]. *)
Theorem X9_clock_monotone (s s' : St) :
  sampler_nonneg service_time_sampler ->
  expovariate_nonneg expovariate ->
  reach s ->
  body s = Ok (Continue s') ->
  0 <= t s /\ t s <= t s' /\ t s' <= sim_time.
Proof.
  intros Hsv Hia Hr Hb.
  destruct (reachable_order s Hsv Hia Hr) as (Ht0 & Hna & Hdep & _).
  destruct (reachable_basic W expovariate arrival_rate service_time_sampler
              sim_time max_packets s Hr) as (Hserv & _ & _).
  apply loop_body_Continue in Hb.
  destruct Hb as [(a & Ena & _ & Ha & Hev)|(d & Ed & Hd & _ & Hev)].
  - destruct (arrival_event_arrivals W expovariate arrival_rate
                service_time_sampler s s' a Hserv Hev) as (_ & _ & Et).
    rewrite Et. repeat split; auto.
  - destruct (departure_event_arrivals W service_time_sampler s s' d Hev)
      as (_ & Et).
    rewrite Et. repeat split; auto.
Qed.

(** *** When service starts *)

Lemma consecutive_snoc_all {A : Type} (R : A -> A -> Prop) (l : list A)
    (x : A) :
  consecutive R l -> Forall (fun y => R y x) l -> consecutive R (l ++ [x]).
Proof.
  induction l as [|z l IH]; simpl; intros Hc Hall.
  - auto.
  - destruct Hc as [Hz Hc]. inversion Hall as [|? ? Hzx Hall']; subst.
    split; [|now apply IH].
    destruct l; simpl; assumption.
Qed.

Lemma consecutive_snoc_last {A : Type} (R : A -> A -> Prop) (l : list A)
    (y x : A) :
  consecutive R (l ++ [y]) -> R y x -> consecutive R ((l ++ [y]) ++ [x]).
Proof.
  induction l as [|z l IH]; simpl; intros Hc Hyx.
  - auto.
  - destruct Hc as [Hz Hc]. split; [|now apply IH].
    destruct l; simpl in *; assumption.
Qed.

Lemma loop_body_served (s s' : St) :
  basic_invariant arrival_rate sim_time s ->
  service_invariant s ->
  order_invariant s ->
  consecutive starts_after (served s) ->
  body s = Ok (Continue s') ->
  consecutive starts_after (served s').
Proof.
  intros (Hserv & _ & _) (_ & _ & Hq) (_ & Hna & _ & _ & _ & _ & Hbd)
         Hch Hb.
  apply loop_body_Continue in Hb.
  destruct Hb as [(a & Ena & _ & _ & Hev)|(d & Ed & _ & _ & Hev)].
  - assert (Hta : t s <= a) by now apply Hna.
    unfold arrival_event in Hev. unfold serving_consistent in Hserv.
    unfold served in *.
    destruct (server_busy s) eqn:Eb; simpl in Hev; inv_bind; simpl.
    + exact Hch.
    + destruct Hserv as (_ & _ & Ecs). rewrite Ecs, app_nil_r in Hch.
      apply consecutive_snoc_all; [exact Hch|].
      eapply Forall_impl; [|exact Hbd]. simpl. intros y Hy.
      left. unfold start_of. simpl. split; [reflexivity|lra].
  - unfold departure_event in Hev. unfold serving_consistent in Hserv.
    unfold served in *.
    destruct (server_busy s) eqn:Eb;
      [|destruct Hserv as (_ & Einf & _); congruence].
    destruct Hserv as (p & d' & Ecs & _ & Epd & Ed').
    assert (d' = d) by congruence. subst d'.
    specialize (Hq d Ed). rewrite Ecs in Hev, Hch.
    destruct (queue s) as [|next_pkt rest]; inv_bind; simpl.
    + now rewrite app_nil_r.
    + apply consecutive_snoc_last; [exact Hch|].
      inversion Hq; subst.
      right. unfold start_of, departure_of. rewrite Epd. simpl.
      split; [reflexivity|assumption].
Qed.

(** X8.  When neither the sampler nor [random.expovariate] returns a
    negative value, service is work-conserving and in order: the first
    completed packet entered service on arrival, and every later one
    entered service on its own arrival if the packet completed before it had
    departed by then, and at that packet's departure otherwise. *)
Theorem X8_service_starts (fuel : nat) (w : W) (s : St) :
  sampler_nonneg service_time_sampler ->
  expovariate_nonneg expovariate ->
  run fuel w = Ok s ->
  consecutive starts_after (packets_completed s) /\
  (forall p rest, packets_completed s = p :: rest ->
                  Packet.start_service p = Some (Packet.arrival_time p)).
Proof.
  intros Hsv Hia H.
  pose proof (run_reachable W expovariate arrival_rate service_time_sampler
                sim_time max_packets fuel w s H) as Hr.
  clear H.
  cut (consecutive starts_after (served s) /\
       forall p rest, served s = p :: rest ->
                      Packet.start_service p = Some (Packet.arrival_time p)).
  { unfold served. intros [Hch Hhd]. split.
    - clear Hhd. revert Hch.
      generalize (match current_serving s with
                  | Some p => [p] | None => [] end).
      intros l'. induction (packets_completed s) as [|x l IH]; simpl.
      + auto.
      + intros [Hx Hc]. split; [|now apply IH].
        destruct l; simpl in *; auto.
    - intros p rest E. rewrite E in Hhd. simpl in Hhd.
      eapply Hhd. reflexivity. }
  induction Hr as [w0 s E|s s' Hr IH Hc Hb].
  - destruct (initial_state_fields w0 s E) as (_ & _ & _ & Ec & Ecs & _).
    unfold served. rewrite Ec, Ecs. simpl. split; [auto|discriminate].
  - destruct IH as [IHc IHh].
    pose proof (reachable_basic W expovariate arrival_rate
                  service_time_sampler sim_time max_packets s Hr) as Hbas.
    split.
    + eapply loop_body_served; eauto.
      * now apply reachable_service.
      * now apply reachable_order.
    + destruct Hbas as (Hserv & _ & _).
      apply loop_body_Continue in Hb.
      destruct Hb as [(a & _ & _ & _ & Hev)|(d & Ed & _ & _ & Hev)].
      * unfold arrival_event in Hev. unfold serving_consistent in Hserv.
        unfold served in *.
        destruct (server_busy s) eqn:Eb; simpl in Hev; inv_bind; simpl.
        -- exact IHh.
        -- destruct Hserv as (_ & _ & Ecs). rewrite Ecs, app_nil_r in IHh.
           intros p rest Eh.
           destruct (packets_completed s) as [|p0 l0]; simpl in Eh;
             inversion Eh; subst; [reflexivity|].
           eapply IHh. reflexivity.
      * unfold serving_consistent in Hserv.
        destruct (server_busy s);
          [|destruct Hserv as (_ & Einf & _); congruence].
        destruct Hserv as (p0 & d' & Ecs & _).
        pose proof (departure_event_completed W service_time_sampler
                      s s' d p0 Ecs Hev) as Edone.
        unfold served in *. rewrite Edone. rewrite Ecs in IHh.
        intros p rest Eh.
        destruct (packets_completed s) as [|p1 l1]; simpl in *;
          inversion Eh; subst; eapply IHh; reflexivity.
Qed.

End SimulatorMore.

(** ** Scripted runs for the further properties *)

Lemma md1_sampler_constant (W : Type) (c : Q) :
  sampler_constant c (md1_sampler W c).
Proof.
  intros w x w' H. unfold md1_sampler in H. now inversion H.
Qed.

Lemma X1_witness :
  exists s, Script.run [1; 1; 5] [2; 1] 1 5 10 = Ok s /\
            (server_busy s = false -> queue s = []).
Proof.
  eexists. split.
  - vm_compute. reflexivity.
  - eapply (fun H => proj1 (proj2 (proj2 H))).
    apply (X1_server_state_consistent Script.W
             (Script.expovariate [1; 1; 5]) 1 (Script.sampler [2; 1]) 5 10).
    apply run_reachable with (fuel := iterations_bound 10)
                             (w := Script.start).
    vm_compute. reflexivity.
Defined.

Lemma X2_witness :
  exists s, Script.run [1; 1; 5] [2; 1] 1 5 10 = Ok s /\
            (0 <= packet_count s <= Z.max 0 10)%Z.
Proof.
  eexists. split.
  - vm_compute. reflexivity.
  - eapply proj2.
    apply (X2_packets_conserved Script.W
             (Script.expovariate [1; 1; 5]) 1 (Script.sampler [2; 1]) 5 10).
    apply run_reachable with (fuel := iterations_bound 10)
                             (w := Script.start).
    vm_compute. reflexivity.
Defined.

Lemma X3_witness :
  exists w', Script.results [1; 1; 5] [2; 1] 1 0 10 = Ok ([], [], w').
Proof.
  apply (X3_empty_horizon_or_cap Script.W (Script.expovariate [1; 1; 5]) 1
           (Script.sampler [2; 1]) 0 10 Script.start).
  left. lra.
Defined.

Lemma X4_witness :
  exists s delays queueing_times,
    Script.run [1; 1; 5] [2; 1] 1 5 10 = Ok s /\
    Script.results [1; 1; 5] [2; 1] 1 5 10 =
    Ok (delays, queueing_times, world s) /\
    Forall2 (fun d q => 0 <= q /\ q <= d) delays queueing_times.
Proof.
  eexists.
  destruct (X4_delays_nonnegative Script.W
              (Script.expovariate [1; 1; 5]) 1 (Script.sampler [2; 1]) 5 10
              (iterations_bound 10) Script.start _
              (Script_sampler_nonneg [2; 1] ltac:(nonneg_literals))
              ltac:(vm_compute; reflexivity))
    as (delays & queueing_times & E & Hall).
  exists delays, queueing_times. split; [vm_compute; reflexivity|].
  split; [exact E|exact Hall].
Defined.

(** A sampler that raises on its first call: the exception leaves
    [simulate_queue]. *)
Lemma X5_witness :
  simulate_queue_fuel Script.W (Script.expovariate [1; 1; 5]) 1
    (fun _ => Raise TypeError) 5 10 (iterations_bound 10) Script.start =
  Raise TypeError /\
  exists w' : Script.W, (fun _ : Script.W => Raise TypeError) w' =
                        (Raise TypeError : outcome (Q * Script.W)).
Proof.
  split; [vm_compute; reflexivity|].
  apply (X5_exceptions_come_from_sampler Script.W
           (Script.expovariate [1; 1; 5]) 1 (fun _ => Raise TypeError) 5 10
           (iterations_bound 10) Script.start TypeError).
  vm_compute. reflexivity.
Defined.

Lemma X6_witness :
  exists s,
    simulate_queue_loop Script.W (Script.expovariate [1; 1; 5]) 1
      (md1_sampler Script.W 2) 5 10 (iterations_bound 10) Script.start =
    Ok s /\
    Forall (fun p => departure_of p = start_of p + 2) (packets_completed s).
Proof.
  eexists. split.
  - vm_compute. reflexivity.
  - apply (X6_constant_service_time Script.W
             (Script.expovariate [1; 1; 5]) 1 (md1_sampler Script.W 2) 5 10
             2 (iterations_bound 10) Script.start).
    + apply md1_sampler_constant.
    + vm_compute. reflexivity.
Defined.

Lemma X7_witness :
  exists s, Script.run [1; 1; 5] [2; 1] 1 5 10 = Ok s /\
            Forall waiting (queue s).
Proof.
  eexists. split.
  - vm_compute. reflexivity.
  - eapply proj1.
    apply (X7_waiting_line_untouched Script.W
             (Script.expovariate [1; 1; 5]) 1 (Script.sampler [2; 1]) 5 10).
    apply run_reachable with (fuel := iterations_bound 10)
                             (w := Script.start).
    vm_compute. reflexivity.
Defined.

Lemma X8_witness :
  exists s, Script.run [1; 1; 5] [2; 1] 1 5 10 = Ok s /\
            consecutive starts_after (packets_completed s).
Proof.
  eexists. split.
  - vm_compute. reflexivity.
  - eapply proj1.
    apply (X8_service_starts Script.W
             (Script.expovariate [1; 1; 5]) 1 (Script.sampler [2; 1]) 5 10
             (iterations_bound 10) Script.start).
    + apply Script_sampler_nonneg. nonneg_literals.
    + apply Script_expovariate_nonneg. nonneg_literals.
    + vm_compute. reflexivity.
Defined.

Lemma X9_witness :
  exists s s',
    initial_state Script.W (Script.expovariate [1; 1; 5]) 1 Script.start =
    Ok s /\
    loop_body Script.W (Script.expovariate [1; 1; 5]) 1
      (Script.sampler [2; 1]) 5 s = Ok (Continue s') /\
    t s <= t s'.
Proof.
  eexists. eexists. split; [vm_compute; reflexivity|].
  split; [vm_compute; reflexivity|].
  eapply (fun H => proj1 (proj2 H)).
  apply (X9_clock_monotone Script.W
           (Script.expovariate [1; 1; 5]) 1 (Script.sampler [2; 1]) 5 10).
  - apply Script_sampler_nonneg. nonneg_literals.
  - apply Script_expovariate_nonneg. nonneg_literals.
  - apply reachable_initial with (w := Script.start).
    vm_compute. reflexivity.
  - vm_compute. reflexivity.
Defined.

(** * Further properties of the experiment runner *)

Lemma Forall2_Forall_r {A B : Type} (R : A -> B -> Prop) (P : B -> Prop)
    (la : list A) (lb : list B) :
  (forall a b, In a la -> R a b -> P b) -> Forall2 R la lb -> Forall P lb.
Proof.
  intros HRP H. induction H as [|a b la lb Hab _ IH]; constructor.
  - apply (HRP a b); [now left|exact Hab].
  - apply IH. intros a' b' Hin. apply HRP. now right.
Qed.

Lemma Qdiv_pos (a b : Q) : 0 < a -> 0 < b -> 0 < a / b.
Proof.
  intros Ha Hb. apply Qlt_shift_div_l; [exact Hb|]. lra.
Qed.

Lemma Qinv_antitone (x y : Q) : 0 < y -> y <= x -> 1 / x <= 1 / y.
Proof.
  intros Hy Hyx. apply Qle_shift_div_l; [exact Hy|].
  assert (E : 1 / x * y == y / x) by (field; lra).
  rewrite E. apply Qle_shift_div_r; lra.
Qed.

(** With a positive service rate, the load is below it exactly when the
    utilization is below one. *)
Lemma load_below_rate (mu r : Q) : 0 < mu -> (r * mu < mu <-> r < 1).
Proof.
  intros Hmu. split; intros H; nra.
Qed.

Lemma row_for_finite (mu r : Q) (row : Row) :
  0 < mu -> 0 < r -> r < 1 -> row_for mu r row ->
  exists a q, analytic_mm1_total_s row = Real a /\
              analytic_mm1_queue_s row = Real q /\ 0 < q /\ q < a.
Proof.
  intros Hmu Hr0 Hr1 (_ & _ & _ & _ & Hlt & _).
  assert (Hl : r * mu < mu) by now apply load_below_rate.
  destruct (Hlt Hl) as [Et Eq].
  exists (1 / (mu - r * mu)), (r / (mu - r * mu)).
  split; [exact Et|]. split; [exact Eq|].
  assert (Hd : 0 < mu - r * mu) by lra.
  split.
  - now apply Qdiv_pos.
  - unfold Qdiv. apply Qmult_lt_compat_r; [|exact Hr1].
    now apply Qinv_lt_0_compat.
Qed.

Lemma row_for_monotone (mu r1 r2 : Q) (row1 row2 : Row) :
  0 < mu -> r1 <= r2 -> row_for mu r1 row1 -> row_for mu r2 row2 ->
  xreal_le (analytic_mm1_total_s row1) (analytic_mm1_total_s row2).
Proof.
  intros Hmu Hr (_ & _ & _ & _ & Hlt1 & Hge1) (_ & _ & _ & _ & Hlt2 & Hge2).
  destruct (Qlt_le_dec (r2 * mu) mu) as [H2|H2].
  - assert (H1 : r1 * mu < mu).
    { apply load_below_rate; [exact Hmu|].
      apply load_below_rate in H2; [|exact Hmu]. lra. }
    destruct (Hlt1 H1) as [E1 _]. destruct (Hlt2 H2) as [E2 _].
    rewrite E1, E2. simpl. apply Qinv_antitone; [lra|].
    assert (r1 * mu <= r2 * mu) by (apply Qmult_le_compat_r; lra). lra.
  - destruct (Hge2 H2) as [E2 _]. rewrite E2.
    destruct (Qlt_le_dec (r1 * mu) mu) as [H1|H1].
    + destruct (Hlt1 H1) as [E1 _]. rewrite E1. exact I.
    + destruct (Hge1 H1) as [E1 _]. rewrite E1. exact I.
Qed.

Section RunnerMore.

Variable W : Type.
Variable expovariate : Q -> W -> Q * W.

(** X11.  For a positive packet size, a positive bandwidth and [rho] values
    strictly between 0 and 1 the runner returns its rows, and in every row
    both analytic delays are finite and positive, the queueing delay below
    the total. *)
Theorem X11_well_formed_sweep
    (packet_size_bytes bandwidth_bps : Q) (rho_list : option (list Q))
    (sim_time : Q) (w : W) :
  0 < packet_size_bytes -> 0 < bandwidth_bps ->
  Forall (fun r => 0 < r /\ r < 1) (rho_values rho_list) ->
  exists rows w',
    run_experiments W expovariate packet_size_bytes bandwidth_bps rho_list
      sim_time w = Ok (rows, w') /\
    length rows = length (rho_values rho_list) /\
    Forall (fun row =>
              exists a q, analytic_mm1_total_s row = Real a /\
                          analytic_mm1_queue_s row = Real q /\
                          0 < q /\ q < a) rows.
Proof.
  intros Hp Hb Hrho.
  destruct (run_experiments_cases W expovariate packet_size_bytes
              bandwidth_bps rho_list sim_time w)
    as [([Hz|Hz] & _)|(_ & _ & rows & w' & E & Hrows)]; try lra.
  exists rows, w'. split; [exact E|].
  split; [symmetry; eapply Forall2_length; eauto|].
  assert (Hmu : 0 < bandwidth_bps / (packet_size_bytes * 8))
    by (apply Qdiv_pos; lra).
  rewrite Forall_forall in Hrho.
  eapply Forall2_Forall_r; [|exact Hrows].
  intros r row Hin Hrow. destruct (Hrho r Hin) as [Hr0 Hr1].
  now apply row_for_finite with (mu := bandwidth_bps / (packet_size_bytes * 8))
                                (r := r).
Qed.

(** X12.  For a positive packet size and a positive bandwidth, the analytic
    total delay does not decrease with [rho]: of two rows of the table, the
    one with the larger [rho] has the larger or equal analytic total delay,
    infinite included. *)
Theorem X12_analytic_total_monotone
    (packet_size_bytes bandwidth_bps : Q) (rho_list : option (list Q))
    (sim_time : Q) (w w' : W) (rows : list Row) :
  0 < packet_size_bytes -> 0 < bandwidth_bps ->
  run_experiments W expovariate packet_size_bytes bandwidth_bps rho_list
    sim_time w = Ok (rows, w') ->
  forall row1 row2, In row1 rows -> In row2 rows ->
                    rho row1 <= rho row2 ->
                    xreal_le (analytic_mm1_total_s row1)
                             (analytic_mm1_total_s row2).
Proof.
  intros Hp Hb H.
  destruct (run_experiments_cases W expovariate packet_size_bytes
              bandwidth_bps rho_list sim_time w)
    as [(_ & E)|(_ & _ & rows' & w'' & E & Hrows)]; [congruence|].
  rewrite E in H. inversion H; subst. clear H.
  assert (Hmu : 0 < bandwidth_bps / (packet_size_bytes * 8))
    by (apply Qdiv_pos; lra).
  assert (Hall : Forall (fun row =>
                           row_for (bandwidth_bps / (packet_size_bytes * 8))
                                   (rho row) row) rows).
  { eapply Forall2_Forall_r; [|exact Hrows].
    intros r row _ Hrow. pose proof Hrow as (Er & _).
    rewrite Er. exact Hrow. }
  rewrite Forall_forall in Hall.
  intros row1 row2 H1 H2 Hle.
  eapply row_for_monotone; eauto.
Qed.

End RunnerMore.

(** ** The simulated columns *)






Section SimulatedDelays.

Variable W : Type.
Variable expovariate : Q -> W -> Q * W.
Variable arrival_rate : Q.
Variable service_time_sampler : W -> outcome (Q * W).
Variable sim_time : Q.
Variable max_packets : Z.

Local Abbreviation run :=
  (simulate_queue_loop W expovariate arrival_rate service_time_sampler
     sim_time max_packets).




End SimulatedDelays.

Section RunnerSimulated.

Variable W : Type.
Variable expovariate : Q -> W -> Q * W.







End RunnerSimulated.

(** * Further properties of the delay formulas *)

Lemma round_half_even_range (y : Q) :
  round_half_even y = Qfloor y \/ round_half_even y = (Qfloor y + 1)%Z.
Proof.
  unfold round_half_even.
  destruct (Qcompare (y - inject_Z (Qfloor y)) (1 # 2)); auto.
  destruct (Z.even (Qfloor y)); auto.
Qed.

(** Rounding keeps the order. *)
Lemma round_half_even_monotone (x y : Q) :
  x <= y -> (round_half_even x <= round_half_even y)%Z.
Proof.
  intros Hxy. pose proof (Qfloor_resp_le x y Hxy) as Hf.
  destruct (Z.eq_dec (Qfloor x) (Qfloor y)) as [E|E].
  - unfold round_half_even. rewrite <- E.
    destruct (Qcompare (x - inject_Z (Qfloor x)) (1 # 2)) eqn:Ex;
      destruct (Qcompare (y - inject_Z (Qfloor x)) (1 # 2)) eqn:Ey;
      rewrite <- ?Qlt_alt, <- ?Qgt_alt, <- ?Qeq_alt in *;
      try destruct (Z.even (Qfloor x)); try lia; lra.
  - destruct (round_half_even_range x) as [Rx|Rx],
             (round_half_even_range y) as [Ry|Ry]; lia.
Qed.

Lemma py_round_6_monotone (x y : Q) :
  x <= y -> py_round x 6 <= py_round y 6.
Proof.
  intros Hxy. unfold py_round.
  change (inject_Z (10 ^ Z.of_nat 6)) with (1000000 : Q).
  assert (H : (round_half_even (x * 1000000) <=
               round_half_even (y * 1000000))%Z)
    by (apply round_half_even_monotone; lra).
  rewrite Zle_Qle in H. unfold Qdiv.
  apply Qmult_le_compat_r; [exact H|]. discriminate.
Qed.

Lemma py_round_6_nonneg (x : Q) : 0 <= x -> 0 <= py_round x 6.
Proof.
  intros Hx. apply py_round_6_monotone in Hx.
  assert (E : py_round 0 6 == 0) by reflexivity.
  rewrite E in Hx. exact Hx.
Qed.

(** X15.  [propagation_delay] never raises: for a zero propagation speed it
    returns the infinite delay, and otherwise [distance / speed] rounded to
    six decimals, a multiple of one millionth at most half a millionth
    away from the quotient. *)
Theorem X15_propagation_delay (distance_km propagation_speed_kmps : Q) :
  exists v,
    propagation_delay distance_km propagation_speed_kmps = Ok v /\
    (propagation_speed_kmps == 0 -> v = PosInf) /\
    (~ propagation_speed_kmps == 0 ->
     exists r, v = Real r /\
               r = py_round (distance_km / propagation_speed_kmps) 6 /\
               (exists k : Z, r = inject_Z k / 1000000) /\
               Qabs (r - distance_km / propagation_speed_kmps) <=
               1 # 2000000).
Proof.
  unfold propagation_delay.
  destruct (Qeq_dec propagation_speed_kmps 0) as [H|H].
  - rewrite pydiv_Raise by exact H. simpl.
    exists PosInf. split; [reflexivity|]. split; [reflexivity|tauto].
  - rewrite pydiv_Ok by exact H. simpl.
    eexists. split; [reflexivity|]. split; [tauto|].
    intros _. eexists. split; [reflexivity|]. split; [reflexivity|].
    destruct (py_round_6 (distance_km / propagation_speed_kmps))
      as [Hb Hk].
    split; [exact Hk|exact Hb].
Qed.

(** X16.  [congestion_delay] never raises and its [except] branch is never
    taken: the statements inside the [try] return a value themselves, for
    every input.  That value is the infinite delay exactly when the service
    rate is at or below the arrival rate, and for a non-negative queue
    length and a larger service rate it is a non-negative number. *)
Theorem X16_congestion_delay (queue_length arrival service : Q) :
  exists v,
    congestion_delay_try queue_length arrival service = Ok v /\
    congestion_delay queue_length arrival service =
    try_except_ZeroDivisionError
      (congestion_delay_try queue_length arrival service) PosInf /\
    congestion_delay queue_length arrival service = Ok v /\
    (v = PosInf <-> service <= arrival) /\
    (0 <= queue_length -> arrival < service -> at_least 0 v).
Proof.
  unfold congestion_delay, congestion_delay_try.
  destruct (Qle_bool service arrival) eqn:E.
  - apply Qle_bool_iff in E. exists PosInf.
    split; [reflexivity|]. split; [reflexivity|]. split; [reflexivity|].
    split; [tauto|]. intros; lra.
  - apply Qle_bool_false in E. rewrite pydiv_Ok by lra. simpl.
    eexists. split; [reflexivity|]. split; [reflexivity|].
    split; [reflexivity|]. split.
    + split; [discriminate|]. intros; lra.
    + intros Hq _. simpl. apply py_round_6_nonneg.
      apply Qle_shift_div_l; lra.
Qed.

(** X17.  For a positive bandwidth [transmission_delay] does not decrease
    with the packet size. *)
Theorem X17_transmission_delay_monotone (size1 size2 bandwidth_bps : Q) :
  0 < bandwidth_bps -> size1 <= size2 ->
  exists r1 r2,
    transmission_delay size1 bandwidth_bps = Ok (Real r1) /\
    transmission_delay size2 bandwidth_bps = Ok (Real r2) /\
    r1 <= r2.
Proof.
  intros Hb Hs. unfold transmission_delay.
  rewrite !pydiv_Ok by lra. simpl.
  eexists; eexists. split; [reflexivity|]. split; [reflexivity|].
  apply py_round_6_monotone. unfold Qdiv.
  apply Qmult_le_compat_r; [exact Hs|].
  apply Qlt_le_weak. now apply Qinv_lt_0_compat.
Qed.

(** X18.  For a non-negative queue length [congestion_delay] does not
    decrease with the arrival rate, the infinite delay being the largest
    value. *)
Theorem X18_congestion_delay_monotone
    (queue_length arrival1 arrival2 service : Q) :
  0 <= queue_length -> arrival1 <= arrival2 ->
  exists v1 v2,
    congestion_delay queue_length arrival1 service = Ok v1 /\
    congestion_delay queue_length arrival2 service = Ok v2 /\
    xreal_le v1 v2.
Proof.
  intros Hq Ha. unfold congestion_delay.
  destruct (Qle_bool service arrival2) eqn:E2.
  - destruct (Qle_bool service arrival1) eqn:E1.
    + exists PosInf, PosInf. simpl. auto.
    + apply Qle_bool_false in E1. rewrite pydiv_Ok by lra. simpl.
      eexists; eexists. split; [reflexivity|]. split; [reflexivity|].
      exact I.
  - apply Qle_bool_false in E2.
    assert (E1 : Qle_bool service arrival1 = false)
      by (apply Qle_bool_false; lra).
    rewrite E1. rewrite !pydiv_Ok by lra. simpl.
    eexists; eexists. split; [reflexivity|]. split; [reflexivity|].
    simpl. apply py_round_6_monotone.
    assert (Hinv : 1 / (service - arrival1) <= 1 / (service - arrival2))
      by (apply Qinv_antitone; lra).
    assert (E : forall d, queue_length / d == queue_length * (1 / d))
      by (intros d; unfold Qdiv; ring).
    rewrite !E. rewrite !(Qmult_comm queue_length).
    apply Qmult_le_compat_r; assumption.
Qed.

(** X19.  [total_network_delay] never raises.  Its report carries the
    results of the three formulas; the total is never not-a-number, and it
    is infinite exactly when the bandwidth is zero, the propagation speed
    is zero or the service rate is at or below the arrival rate. *)
Theorem X19_total_network_delay
    (packet_size_bits bandwidth_bps distance_km propagation_speed_kmps
       queue_length arrival_rate service_rate : Q) :
  exists report,
    total_network_delay packet_size_bits bandwidth_bps distance_km
      propagation_speed_kmps queue_length arrival_rate service_rate =
    Ok report /\
    transmission_delay packet_size_bits bandwidth_bps =
    Ok (Transmission_Delay_sec report) /\
    propagation_delay distance_km propagation_speed_kmps =
    Ok (Propagation_Delay_sec report) /\
    congestion_delay queue_length arrival_rate service_rate =
    Ok (Congestion_Delay_sec report) /\
    Total_Delay_sec report <> NaN /\
    (Total_Delay_sec report = PosInf <->
     bandwidth_bps == 0 \/ propagation_speed_kmps == 0 \/
     service_rate <= arrival_rate).
Proof.
  unfold total_network_delay, transmission_delay, propagation_delay,
    congestion_delay.
  destruct (Qeq_dec bandwidth_bps 0) as [Hb|Hb];
    [rewrite (pydiv_Raise _ _ Hb)|rewrite (pydiv_Ok _ _ Hb)];
    (destruct (Qeq_dec propagation_speed_kmps 0) as [Hs|Hs];
     [rewrite (pydiv_Raise _ _ Hs)|rewrite (pydiv_Ok _ _ Hs)]);
    (destruct (Qle_bool service_rate arrival_rate) eqn:E;
     [apply Qle_bool_iff in E
     |apply Qle_bool_false in E; rewrite pydiv_Ok by lra]);
    simpl; eexists; (split; [reflexivity|]); simpl;
    repeat (split; [reflexivity|]);
    (split; [discriminate|]);
    (split; [intros H; try discriminate H; tauto|]);
    try reflexivity;
    intros [H|[H|H]]; try contradiction; lra.
Qed.

(** X20.  When the bandwidth and the propagation speed are not zero and the
    service rate is above the arrival rate, the total of the report is a
    number at most two millionths away from
    [size / bandwidth + distance / speed + queue_length / (service - arrival)]. *)
Theorem X20_total_network_delay_error
    (packet_size_bits bandwidth_bps distance_km propagation_speed_kmps
       queue_length arrival_rate service_rate : Q) :
  ~ bandwidth_bps == 0 -> ~ propagation_speed_kmps == 0 ->
  arrival_rate < service_rate ->
  exists report total,
    total_network_delay packet_size_bits bandwidth_bps distance_km
      propagation_speed_kmps queue_length arrival_rate service_rate =
    Ok report /\
    Total_Delay_sec report = Real total /\
    Qabs (total -
          (packet_size_bits / bandwidth_bps +
           distance_km / propagation_speed_kmps +
           queue_length / (service_rate - arrival_rate))) <=
    2 # 1000000.
Proof.
  intros Hb Hs Ha.
  unfold total_network_delay, transmission_delay, propagation_delay,
    congestion_delay.
  rewrite (pydiv_Ok _ _ Hb), (pydiv_Ok _ _ Hs).
  assert (E : Qle_bool service_rate arrival_rate = false)
    by (apply Qle_bool_false; exact Ha).
  rewrite E, pydiv_Ok by lra.
  cbv beta iota delta [bind try_except_ZeroDivisionError xadd xround].
  eexists; eexists. split; [reflexivity|].
  cbv beta iota delta [Total_Delay_sec]. split; [reflexivity|].
  set (a := packet_size_bits / bandwidth_bps).
  set (b := distance_km / propagation_speed_kmps).
  set (c := queue_length / (service_rate - arrival_rate)).
  destruct (py_round_6 a) as [Ha6 _]. destruct (py_round_6 b) as [Hb6 _].
  destruct (py_round_6 c) as [Hc6 _].
  destruct (py_round_6 (py_round a 6 + py_round b 6 + py_round c 6))
    as [Ht6 _].
  apply Qabs_Qle_condition in Ha6, Hb6, Hc6, Ht6.
  apply Qabs_Qle_condition.
  set (ra := py_round a 6) in *. set (rb := py_round b 6) in *.
  set (rc := py_round c 6) in *.
  set (rt := py_round (ra + rb + rc) 6) in *.
  split; lra.
Qed.

(** ** Concrete instances of the further properties *)

Lemma X11_witness :
  exists rows w',
    run_experiments Script.W (Script.expovariate [1]) 1500 10000000
      (Some [1 # 2]) (1 # 2) Script.start = Ok (rows, w') /\
    length rows = 1%nat.
Proof.
  destruct (X11_well_formed_sweep Script.W (Script.expovariate [1])
              1500 10000000 (Some [1 # 2]) (1 # 2) Script.start)
    as (rows & w' & E & Hlen & _).
  - lra.
  - lra.
  - constructor; [split; lra|constructor].
  - exists rows, w'. split; [exact E|exact Hlen].
Defined.

Lemma X12_witness :
  exists rows w',
    run_experiments Script.W (Script.expovariate [1]) 1500 10000000
      (Some [1 # 4; 1 # 2]) (1 # 2) Script.start = Ok (rows, w') /\
    forall row1 row2, In row1 rows -> In row2 rows ->
                      rho row1 <= rho row2 ->
                      xreal_le (analytic_mm1_total_s row1)
                               (analytic_mm1_total_s row2).
Proof.
  eexists; eexists. split.
  - vm_compute. reflexivity.
  - apply (X12_analytic_total_monotone Script.W (Script.expovariate [1])
             1500 10000000 (Some [1 # 4; 1 # 2]) (1 # 2) Script.start
             (4%nat, O)).
    + lra.
    + lra.
    + vm_compute. reflexivity.
Defined.



Lemma X17_witness :
  exists r1 r2,
    transmission_delay 4000 1000000 = Ok (Real r1) /\
    transmission_delay 8000 1000000 = Ok (Real r2) /\
    r1 <= r2.
Proof.
  apply (X17_transmission_delay_monotone 4000 8000 1000000); lra.
Defined.

Lemma X18_witness :
  exists v1 v2,
    congestion_delay 10 5 10 = Ok v1 /\
    congestion_delay 10 12 10 = Ok v2 /\
    xreal_le v1 v2.
Proof.
  apply (X18_congestion_delay_monotone 10 5 12 10); lra.
Defined.

(** The sample inputs of the module's example usage. *)
Lemma X20_witness :
  exists report total,
    total_network_delay 8000 1000000 1000 200000 10 5 10 = Ok report /\
    Total_Delay_sec report = Real total /\
    Qabs (total - (8000 / 1000000 + 1000 / 200000 + 10 / (10 - 5))) <=
    2 # 1000000.
Proof.
  apply (X20_total_network_delay_error 8000 1000000 1000 200000 10 5 10).
  - discriminate.
  - discriminate.
  - lra.
Defined.

(** * The loop of the queue simulator on a horizon that may be infinite *)

Section ExtFacts.

Variable W : Type.
Variable expovariate : Q -> W -> Q * W.
Variable arrival_rate : Q.
Variable service_time_sampler : W -> outcome (Q * W).
Variable max_packets : Z.

(** On a finite horizon the two readings of lines 22-66 agree, event by
    event. *)
Lemma Ext_arrival_event_lift (s : State W) (a : Q) :
  next_arrival s = Fin a ->
  Ext.arrival_event W expovariate arrival_rate service_time_sampler
    (lift_state s) =
  outcome_map lift_state
    (arrival_event W expovariate arrival_rate service_time_sampler s a).
Proof.
  intros Ena. unfold Ext.arrival_event, arrival_event, lift_state. simpl.
  rewrite Ena.
  destruct (server_busy s); simpl.
  - unfold random_expovariate.
    destruct (Qeq_bool arrival_rate 0); simpl; [reflexivity|].
    destruct (expovariate arrival_rate (world s)) as [x w2]. simpl.
    rewrite map_app. reflexivity.
  - destruct (service_time_sampler (world s)) as [[x w1]| |]; simpl;
      try reflexivity.
    unfold random_expovariate.
    destruct (Qeq_bool arrival_rate 0); simpl; [reflexivity|].
    destruct (expovariate arrival_rate w1) as [x' w2]. reflexivity.
Qed.

Lemma Ext_departure_event_lift (s : State W) (d : Q) :
  departure_time s = Fin d ->
  Ext.departure_event W service_time_sampler (lift_state s) =
  outcome_map lift_state (departure_event W service_time_sampler s d).
Proof.
  intros Ed. unfold Ext.departure_event, departure_event, lift_state. simpl.
  rewrite Ed.
  destruct (current_serving s) as [p|]; destruct (queue s) as [|q rest];
    simpl; try destruct (service_time_sampler (world s)) as [[x w1]| |];
    simpl; rewrite ?map_app; reflexivity.
Qed.

Lemma Ext_loop_body_lift (sim_time : Q) (s : State W) :
  Ext.loop_body W expovariate arrival_rate service_time_sampler
    (Fin sim_time) (lift_state s) =
  outcome_map lift_control
    (loop_body W expovariate arrival_rate service_time_sampler sim_time s).
Proof.
  unfold Ext.loop_body, loop_body, departure_branch, before_departure.
  assert (Hdep : forall d, departure_time s = Fin d ->
            bind (Ext.departure_event W service_time_sampler (lift_state s))
                 (fun s' => Ok (Ext.Continue s')) =
            outcome_map lift_control
              (bind (departure_event W service_time_sampler s d)
                    (fun s' => Ok (Continue s')))).
  { intros d Ed. rewrite (Ext_departure_event_lift s d Ed).
    destruct (departure_event W service_time_sampler s d); reflexivity. }
  assert (Harr : forall a, next_arrival s = Fin a ->
            bind (Ext.arrival_event W expovariate arrival_rate
                    service_time_sampler (lift_state s))
                 (fun s' => Ok (Ext.Continue s')) =
            outcome_map lift_control
              (bind (arrival_event W expovariate arrival_rate
                       service_time_sampler s a)
                    (fun s' => Ok (Continue s')))).
  { intros a Ena. rewrite (Ext_arrival_event_lift s a Ena).
    destruct (arrival_event W expovariate arrival_rate service_time_sampler
                s a); reflexivity. }
  change (Ext.next_arrival (lift_state s)) with (next_arrival s).
  change (Ext.departure_time (lift_state s)) with (departure_time s).
  destruct (next_arrival s) as [a|] eqn:Ena;
    destruct (departure_time s) as [d|] eqn:Ed; unfold xlt, xle, Qltb.
  - destruct (Qle_bool a d && Qle_bool a sim_time); [now apply Harr|].
    destruct (negb (Qle_bool d sim_time)); [reflexivity|now apply Hdep].
  - simpl. destruct (Qle_bool a sim_time); [now apply Harr|reflexivity].
  - simpl.
    destruct (negb (Qle_bool d sim_time)); [reflexivity|now apply Hdep].
  - reflexivity.
Qed.

Lemma Ext_while_loop_lift (sim_time : Q) (fuel : nat) (s : State W) :
  Ext.while_loop W expovariate arrival_rate service_time_sampler
    (Fin sim_time) max_packets fuel (lift_state s) =
  outcome_map lift_state
    (while_loop W expovariate arrival_rate service_time_sampler sim_time
       max_packets fuel s).
Proof.
  revert s. induction fuel as [|fuel IH]; intros s; simpl; [reflexivity|].
  assert (Ec : Ext.loop_condition W (Fin sim_time) max_packets (lift_state s) =
               loop_condition W sim_time max_packets s) by reflexivity.
  rewrite Ec. destruct (loop_condition W sim_time max_packets s);
    [|reflexivity].
  rewrite Ext_loop_body_lift.
  destruct (loop_body W expovariate arrival_rate service_time_sampler
              sim_time s) as [[s1|s1]| |]; simpl; try reflexivity.
  apply IH.
Qed.

(** On a finite horizon the loop with possibly infinite times does exactly
    what the finite-horizon loop does: it is left in the same state, or
    raises the same exception. *)
Lemma Ext_simulate_queue_loop_lift (sim_time : Q) (fuel : nat) (w : W) :
  Ext.simulate_queue_loop W expovariate arrival_rate service_time_sampler
    (Fin sim_time) max_packets fuel w =
  outcome_map lift_state
    (simulate_queue_loop W expovariate arrival_rate service_time_sampler
       sim_time max_packets fuel w).
Proof.
  unfold Ext.simulate_queue_loop, simulate_queue_loop,
    Ext.initial_state, initial_state.
  destruct (Qltb 0 arrival_rate); simpl.
  - unfold random_expovariate.
    destruct (Qeq_bool arrival_rate 0); simpl; [reflexivity|].
    destruct (expovariate arrival_rate w) as [x w']. simpl.
    apply (Ext_while_loop_lift sim_time fuel
             (mkState 0 (Fin x) [] false Inf [] None 0 w')).
  - apply (Ext_while_loop_lift sim_time fuel
             (mkState 0 Inf [] false Inf [] None 0 w)).
Qed.

(** C8, on the failing input.  With [arrival_rate = 0], an infinite
    [sim_time] and a positive packet cap, line 32 takes the arrival branch
    ([inf <= inf]), the sampler is called, and line 47 raises
    [ZeroDivisionError] from [random.expovariate(0)]: the call returns no
    sequences. *)
Theorem C8_infinite_horizon_raises (n : nat) (w : W) :
  arrival_rate == 0 ->
  (0 < max_packets)%Z ->
  sampler_total service_time_sampler ->
  Ext.simulate_queue_loop W expovariate arrival_rate service_time_sampler
    Inf max_packets (S n) w = Raise ZeroDivisionError.
Proof.
  intros Hr Hm Htot.
  unfold Ext.simulate_queue_loop, Ext.initial_state.
  assert (E : Qltb 0 arrival_rate = false) by (apply Qltb_false; lra).
  rewrite E. simpl.
  assert (Ec : Ext.loop_condition W Inf max_packets
                 (Ext.mkState (Fin 0) Inf [] false Inf [] None 0 w) = true).
  { unfold Ext.loop_condition. simpl. apply Z.ltb_lt. exact Hm. }
  rewrite Ec. unfold Ext.loop_body, Ext.arrival_event. simpl.
  destruct (Htot w) as (x & w1 & Es). rewrite Es. simpl.
  unfold random_expovariate.
  apply Qeq_bool_iff in Hr. rewrite Hr. reflexivity.
Qed.

End ExtFacts.

(** [simulate_queue(0, lambda: 1.0, float('inf'))] with the default cap. *)
Lemma C8_witness :
  Ext.simulate_queue_loop Script.W (Script.expovariate []) 0
    (md1_sampler Script.W 1) Inf default_max_packets
    (iterations_bound default_max_packets) Script.start =
  Raise ZeroDivisionError.
Proof.
  apply (C8_infinite_horizon_raises Script.W (Script.expovariate []) 0
           (md1_sampler Script.W 1) default_max_packets _ Script.start).
  - reflexivity.
  - reflexivity.
  - apply md1_sampler_total.
Defined.
